(** * Cart / inventory consistency engine of the e-commerce backend

    A shallow embedding of the cart, product-stock and order services
    ([src/services/cartService.js], [src/services/productService.js],
    [src/services/orderService.js]), of the merge handler of
    [src/controllers/cartController.js] and of the order schema with its
    [updateStatus] method ([src/models/Product.js], second half), followed by
    the properties of these operations.

    Conventions of the embedding.
    - JavaScript numbers: quantities and stock counts are integers ([Z]);
      prices and amounts are IEEE 754 binary64 values ([float]), so every
      product and every sum of amounts is rounded as the program rounds it;
      [ofQuantity] is the double of an integer quantity.  Carts go through
      JSON on their way to and from Redis, which gives a finite double back
      as it was.
    - The MongoDB product collection and the Redis cart store are finite maps
      keyed by the id string; the order collection is a list whose positions
      are the order ids (orders are never deleted).
    - [new Date()] is the [now] argument of every operation.  The 3600 s
      expiry of a Redis key is not timed: an expired key is an absent key.
    - A thrown [Error] aborts the operation and keeps every write done before
      it: operations run in a state-and-error monad.
    - [save()] of a new order validates the document before the schema's
      [pre("save")] hook runs, and rejects it when a required path is
      missing.  [save()] of a loaded document is taken to settle once the
      hook has run (the hook names a [next] argument and does not call it).
    - Logging is omitted. *)

From Stdlib Require Import QArith.
From Stdlib Require Import Floats.
From stdpp Require Import base option list gmap strings.

Local Open Scope Z_scope.

(** ** JavaScript numbers *)

(** The double of an integer: rounded to nearest, exact below 2^53. *)
Definition ofQuantity (n : Z) : float :=
  SF2Prim (binary_normalize prec emax n 0 false).

(** [ToBoolean] on a number: [+0], [-0] and [NaN] are falsy. *)
Definition isFalsy (x : float) : bool := (x =? 0)%float || is_nan x.

(** ** Data model *)

(** Product documents (the paths of [productSchema] that the services read). *)
Record Product := mkProduct {
  p_name : string;
  p_price : float;
  p_discountPrice : float;
  p_stock : Z;
  p_isActive : bool;
  p_images : list string            (* the [url] of every image *)
}.

(** [productSchema.virtual("finalPrice")]: [this.discountPrice || this.price]. *)
Definition finalPrice (p : Product) : float :=
  if isFalsy (p_discountPrice p) then p_price p else p_discountPrice p.

(** One line of a cart, as [addToCart] pushes it. *)
Record CartItem := mkCartItem {
  ci_product : string;
  ci_name : string;
  ci_price : float;
  ci_quantity : Z;
  ci_image : option string
}.

Record Cart := mkCart {
  items : list CartItem;
  totalAmount : float;
  totalItems : Z;
  lastUpdated : Z
}.

Inductive OrderStatus :=
  | pending | confirmed | processing | shipped | delivered | cancelled.

Global Instance OrderStatus_eq_dec : EqDecision OrderStatus.
Proof. solve_decision. Defined.

Record OrderItem := mkOrderItem {
  oi_product : string;
  oi_name : string;
  oi_quantity : Z;
  oi_price : float;
  oi_total : float
}.

(** An entry of [statusHistory] as [updateStatus] builds it. *)
Record StatusEntry := mkStatusEntry {
  se_status : OrderStatus;
  se_note : string;
  se_updatedAt : Z
}.

(** The paths of [orderSchema].  [orderNumber] is [required]; a document that
    has none yet carries [None]. *)
Record Order := mkOrder {
  o_orderNumber : option string;
  o_user : string;
  o_items : list OrderItem;
  o_shippingAddress : string;
  o_billingAddress : string;
  o_paymentMethod : string;
  o_paymentStatus : string;
  o_status : OrderStatus;
  o_statusHistory : list StatusEntry;
  o_subtotal : float;
  o_shippingCost : float;
  o_shippingMethod : string;
  o_tax : float;
  o_total : float;
  o_notes : option string;
  o_deliveredAt : option Z;
  o_cancelledAt : option Z;
  o_cancelledReason : option string
}.

(** An order document in memory: its schema paths, which [save()] writes, and
    the one plain property the services set that is not a path of
    [orderSchema] ([cancelReason]; the schema declares [cancelledReason]).
    The schema is strict, so [save()] does not persist that property. *)
Record OrderDoc := mkOrderDoc {
  paths : Order;
  cancelReason : option string
}.

(** The body of a create-order request. *)
Record OrderData := mkOrderData {
  od_shippingAddress : string;
  od_billingAddress : option string;
  od_paymentMethod : string;
  od_shippingMethod : option string;
  od_notes : option string
}.

(** The stores. *)
Record State := mkState {
  products : gmap string Product;
  redis : gmap string Cart;
  orders : list Order
}.

(** The errors the services throw, by message. *)
Inductive Error :=
  | ProductNotFound                       (* 'Product not found' *)
  | InsufficientStock                     (* 'Insufficient stock' *)
  | ProductNotInCart                      (* 'Product not found in cart' *)
  | CartIsEmpty                           (* 'Cart is empty' *)
  | ProductNotFoundNamed (name : string)  (* `Product not found: ${item.name}` *)
  | InsufficientStockNamed (name : string)(* `Insufficient stock: ${product.name}` *)
  | ProuctNotFound                        (* 'Prouct not found' (updateStock) *)
  | OrderNotFound                         (* 'Order not found' *)
  | OrderNotCancellable                   (* 'This order cannot be cancelled' *)
  | OrderValidationFailed.                (* Mongoose's ValidationError:
                                             'Order validation failed: orderNumber:
                                              Path `orderNumber` is required.' *)

(** ** The state-and-error monad *)

Definition M (A : Type) : Type := State → (Error + A) * State.

Global Instance M_ret : MRet M := λ A a s, (inr a, s).
Global Instance M_bind : MBind M := λ A B f m s,
  match m s with
  | (inl e, s') => (inl e, s')
  | (inr a, s') => f a s'
  end.

Definition throw {A} (e : Error) : M A := λ s, (inl e, s).

Fixpoint forEach {A} (f : A → M unit) (l : list A) : M unit :=
  match l with
  | [] => mret tt
  | x :: rest => f x ≫= λ _, forEach f rest
  end.

(** ** Product collection *)

Definition findById (productId : string) : M (option Product) :=
  λ s, (inr (products s !! productId), s).

Definition saveProduct (productId : string) (p : Product) : M unit :=
  λ s, (inr tt, mkState (<[productId := p]> (products s)) (redis s) (orders s)).

Definition set_stock (p : Product) (n : Z) : Product :=
  mkProduct (p_name p) (p_price p) (p_discountPrice p) n (p_isActive p) (p_images p).

(** [ProductService.updateStock]. *)
Definition updateStock (productId : string) (quantity : Z) : M Z :=
  product ← findById productId;
  match product with
  | None => throw ProuctNotFound
  | Some product =>
      let newStock := p_stock product + quantity in
      if newStock <? 0 then throw InsufficientStock
      else
        saveProduct productId (set_stock product newStock) ;;
        mret newStock
  end.

(** The stock ledger as the order service uses it: a decrement is
    [updateStock(id, -amount)], an increment [updateStock(id, amount)]. *)
Definition decrement (productId : string) (amount : Z) : M Z :=
  updateStock productId (- amount).
Definition increment (productId : string) (amount : Z) : M Z :=
  updateStock productId amount.

Definition available (s : State) (productId : string) : option Z :=
  p_stock <$> products s !! productId.

Inductive StockCall :=
  | Decrement (productId : string) (amount : Z)
  | Increment (productId : string) (amount : Z).

Definition runStockCall (c : StockCall) (s : State) : State :=
  match c with
  | Decrement productId amount => snd (decrement productId amount s)
  | Increment productId amount => snd (increment productId amount s)
  end.

Definition runStockCalls (cs : list StockCall) (s : State) : State :=
  foldl (λ s c, runStockCall c s) s cs.

Definition stocks_nonneg (s : State) : Prop :=
  ∀ productId p, products s !! productId = Some p → 0 ≤ p_stock p.

Definition with_products (s : State) (ps : gmap string Product) : State :=
  mkState ps (redis s) (orders s).

(** ** Cart service *)

Definition emptyCart (now : Z) : Cart := mkCart [] 0%float 0 now.

Definition redisGet (key : string) : M (option Cart) :=
  λ s, (inr (redis s !! key), s).

(** [setex(key, 3600, JSON.stringify(cart))] *)
Definition saveCartToRedis (identifier : string) (cart : Cart) : M unit :=
  λ s, (inr tt, mkState (products s) (<[identifier := cart]> (redis s)) (orders s)).

(** [CartService.getCart]: the stored cart, or a fresh empty cart that is
    stored before it is returned. *)
Definition getCart (now : Z) (identifier : string) : M Cart :=
  cachedCart ← redisGet identifier;
  match cachedCart with
  | Some cart => mret cart
  | None =>
      saveCartToRedis identifier (emptyCart now) ;;
      mret (emptyCart now)
  end.

(** [CartService.calculateCartTotals]: two left-to-right [reduce]s from 0;
    [total + item.price * item.quantity] is a double product added to a
    double. *)
Definition calculateCartTotals (now : Z) (cart : Cart) : Cart :=
  mkCart (items cart)
         (foldl (λ total item,
                   (total + ci_price item * ofQuantity (ci_quantity item))%float)
                0%float (items cart))
         (foldl (λ total item, total + ci_quantity item) 0 (items cart))
         now.

Definition set_quantity (item : CartItem) (q : Z) : CartItem :=
  mkCartItem (ci_product item) (ci_name item) (ci_price item) q (ci_image item).

Definition set_items (cart : Cart) (l : list CartItem) : Cart :=
  mkCart l (totalAmount cart) (totalItems cart) (lastUpdated cart).

(** [cart.items.findIndex(item => item.product.toString() === productId)]:
    the first matching position with its item, [None] for -1. *)
Definition findIndex (productId : string) (l : list CartItem) : option (nat * CartItem) :=
  list_find (λ item, ci_product item = productId) l.

(** [product.images[0]?.url || null] *)
Definition firstImage (p : Product) : option string :=
  match p_images p with
  | [] => None
  | url :: _ => if decide (url = "") then None else Some url
  end.

(** [CartService.addToCart]; the result is the [cart] of the returned object. *)
Definition addToCart (now : Z) (identifier productId : string) (quantity : Z) : M Cart :=
  product ← findById productId;
  match product with
  | None => throw ProductNotFound
  | Some product =>
      if negb (p_isActive product) then throw ProductNotFound
      else if p_stock product <? quantity then throw InsufficientStock
      else
        cart ← getCart now identifier;
        newItems ←
          match findIndex productId (items cart) with
          | Some (existingItemIndex, existing) =>
              let newQuantity := ci_quantity existing + quantity in
              if p_stock product <? newQuantity then throw InsufficientStock
              else mret (<[existingItemIndex := set_quantity existing newQuantity]> (items cart))
          | None =>
              mret (items cart ++
                    [mkCartItem productId (p_name product) (finalPrice product)
                                quantity (firstImage product)])
          end;
        let cart := calculateCartTotals now (set_items cart newItems) in
        saveCartToRedis identifier cart ;;
        mret cart
  end.

(** [CartService.updateCartItem] *)
Definition updateCartItem (now : Z) (identifier productId : string) (quantity : Z) : M Cart :=
  cart ← getCart now identifier;
  match findIndex productId (items cart) with
  | None => throw ProductNotInCart
  | Some (itemIndex, existing) =>
      newItems ←
        (if quantity <=? 0 then
           (* cart.items.splice(itemIndex, 1) *)
           mret (delete itemIndex (items cart))
         else
           product ← findById productId;
           match product with
           | Some product =>
               if p_stock product <? quantity then throw InsufficientStock
               else mret (<[itemIndex := set_quantity existing quantity]> (items cart))
           | None =>
               mret (<[itemIndex := set_quantity existing quantity]> (items cart))
           end);
      let cart := calculateCartTotals now (set_items cart newItems) in
      saveCartToRedis identifier cart ;;
      mret cart
  end.

(** [CartService.removeFromCart] *)
Definition removeFromCart (now : Z) (identifier productId : string) : M Cart :=
  cart ← getCart now identifier;
  let cart := set_items cart (filter (λ item, ci_product item ≠ productId) (items cart)) in
  let cart := calculateCartTotals now cart in
  saveCartToRedis identifier cart ;;
  mret cart.

(** [CartService.clearCart] *)
Definition clearCart (now : Z) (identifier : string) : M Cart :=
  saveCartToRedis identifier (emptyCart now) ;;
  mret (emptyCart now).

(** ** Cart controller: merging the session cart into the user cart *)

Inductive MergeResponse :=
  | MergeBadRequest            (* 400 'Session ID is required' *)
  | MergeOk (cart : Cart)      (* 200 'Carts merged successfully' *)
  | MergeError.                (* 500 'Cart merge error' *)

(** The loop of [CartController.mergeCart]: every item of the session cart is
    added to the user cart, in order; the first error ends the loop. *)
Definition addEach (now : Z) (userId : string) (sessionItems : list CartItem) : M unit :=
  forEach (λ item, addToCart now userId (ci_product item) (ci_quantity item) ≫= λ _, mret tt)
          sessionItems.

(** The [try] block of [CartController.mergeCart]. *)
Definition mergeBody (now : Z) (userId sessionId : string) : M Cart :=
  sessionCart ← getCart now sessionId;
  (if bool_decide (items sessionCart = []) then mret tt
   else
     addEach now userId (items sessionCart) ;;
     clearCart now sessionId ;;
     mret tt) ;;
  getCart now userId.

(** [CartController.mergeCart]: [sessionId] is [req.body.sessionId] (absent or
    empty is falsy); every error of the [try] block is answered with 500. *)
Definition mergeCart (now : Z) (userId : string) (sessionId : option string)
    (s : State) : MergeResponse * State :=
  match sessionId with
  | None => (MergeBadRequest, s)
  | Some sessionId =>
      if decide (sessionId = "") then (MergeBadRequest, s)
      else
        match mergeBody now userId sessionId s with
        | (inr updatedCart, s') => (MergeOk updatedCart, s')
        | (inl _, s') => (MergeError, s')
        end
  end.

(** ** Order model: [orderSchema.methods.updateStatus]

    The method assigns [this.status] and then evaluates
    [this.statusHistory.push[{status, note, updatedAt}]]: square brackets, a
    property lookup on the function [push] under the key made from the object
    literal.  Nothing is called, so no entry is added to [statusHistory]. *)
Definition set_status (o : Order) (st : OrderStatus) : Order :=
  mkOrder (o_orderNumber o) (o_user o) (o_items o)
    (o_shippingAddress o) (o_billingAddress o)
    (o_paymentMethod o) (o_paymentStatus o) st (o_statusHistory o)
    (o_subtotal o) (o_shippingCost o) (o_shippingMethod o) (o_tax o) (o_total o)
    (o_notes o) (o_deliveredAt o) (o_cancelledAt o) (o_cancelledReason o).

Definition set_deliveredAt (o : Order) (t : Z) : Order :=
  mkOrder (o_orderNumber o) (o_user o) (o_items o)
    (o_shippingAddress o) (o_billingAddress o)
    (o_paymentMethod o) (o_paymentStatus o) (o_status o) (o_statusHistory o)
    (o_subtotal o) (o_shippingCost o) (o_shippingMethod o) (o_tax o) (o_total o)
    (o_notes o) (Some t) (o_cancelledAt o) (o_cancelledReason o).

Definition set_cancelledAt (o : Order) (t : Z) : Order :=
  mkOrder (o_orderNumber o) (o_user o) (o_items o)
    (o_shippingAddress o) (o_billingAddress o)
    (o_paymentMethod o) (o_paymentStatus o) (o_status o) (o_statusHistory o)
    (o_subtotal o) (o_shippingCost o) (o_shippingMethod o) (o_tax o) (o_total o)
    (o_notes o) (o_deliveredAt o) (Some t) (o_cancelledReason o).

Definition updateStatus (now : Z) (newStatus : OrderStatus) (note : string)
    (this : Order) : Order :=
  let this := set_status this newStatus in
  (* this.statusHistory.push[ {...} ] : evaluated, no effect *)
  if decide (newStatus = delivered) then set_deliveredAt this now
  else if decide (newStatus = cancelled) then set_cancelledAt this now
  else this.

(** What the method would do with the call [push({...})], as the
    specification words it: the entry is appended. *)
Definition updateStatus_spec (now : Z) (newStatus : OrderStatus) (note : string)
    (this : Order) : list StatusEntry :=
  o_statusHistory this ++ [mkStatusEntry newStatus note now].

(** ** Order service *)

(** [order.save()] of a new document.  Mongoose validates the document before
    it runs the [pre("save")] hook of the schema, so the order number that the
    hook would generate comes too late for the [required] validator of
    [orderNumber]: a document without an order number is rejected with a
    [ValidationError] and nothing is written.  A document that has one is
    appended, and its position is its id. *)
Definition insertOrder (o : Order) : M nat :=
  match o_orderNumber o with
  | None => throw OrderValidationFailed
  | Some _ =>
      λ s, (inr (length (orders s)), mkState (products s) (redis s) (orders s ++ [o]))
  end.

(** [order.save()] of a loaded document: its schema paths are written back.
    The write is taken to settle after the [pre("save")] hook, which finds the
    order number present and does nothing. *)
Definition saveOrder (orderId : nat) (doc : OrderDoc) : M unit :=
  λ s, (inr tt, mkState (products s) (redis s) (<[orderId := paths doc]> (orders s))).

(** [Order.findById(orderId)] *)
Definition findOrderById (orderId : nat) : M (option OrderDoc) :=
  λ s, (inr ((λ o, mkOrderDoc o None) <$> orders s !! orderId), s).

(** [Order.findOne({ _id: orderId, user: userId })] *)
Definition findOrder (orderId : nat) (userId : string) : M (option OrderDoc) :=
  λ s, (inr (match orders s !! orderId with
             | Some o => if decide (o_user o = userId) then Some (mkOrderDoc o None) else None
             | None => None
             end), s).

(** [OrderService.calculateShipping]: [subtotal >= 500] gives 0, anything
    else the double 29.99. *)
Definition calculateShipping (subtotal : float) : float :=
  if (500 <=? subtotal)%float then 0%float else 29.99%float.

(** [OrderService.calculateTax]: [subtotal * 0.20], a double product. *)
Definition calculateTax (subtotal : float) : float := (subtotal * 0.20)%float.

(** The first loop of [createOrder]: every cart line is checked against the
    catalog and priced with the product's current [finalPrice]. *)
Fixpoint checkItems (cartItems : list CartItem) (orderItems : list OrderItem)
    (subtotal : float) : M (list OrderItem * float) :=
  match cartItems with
  | [] => mret (orderItems, subtotal)
  | item :: rest =>
      product ← findById (ci_product item);
      match product with
      | None => throw (ProductNotFoundNamed (ci_name item))
      | Some product =>
          if negb (p_isActive product) then throw (ProductNotFoundNamed (ci_name item))
          else if p_stock product <? ci_quantity item
          then throw (InsufficientStockNamed (p_name product))
          else
            let itemTotal := (finalPrice product * ofQuantity (ci_quantity item))%float in
            checkItems rest
              (orderItems ++ [mkOrderItem (ci_product item) (p_name product)
                                          (ci_quantity item) (finalPrice product) itemTotal])
              (subtotal + itemTotal)%float
      end
  end.

(** The second loop of [createOrder]:
    [ProductService.updateStock(item.product, -item.quantity)] for every order
    item, in order; the first error ends the loop. *)
Definition decrementEach (orderItems : list OrderItem) : M unit :=
  forEach (λ item, updateStock (oi_product item) (- oi_quantity item) ≫= λ _, mret tt)
          orderItems.

(** The loop of [cancelOrder]:
    [ProductService.updateStock(item.product, item.quantity)] for every order
    item. *)
Definition restoreEach (orderItems : list OrderItem) : M unit :=
  forEach (λ item, updateStock (oi_product item) (oi_quantity item) ≫= λ _, mret tt)
          orderItems.

(** [OrderService.createOrder]; the result is the saved order.  The document
    is built without an [orderNumber]. *)
Definition createOrder (now : Z) (userId : string) (orderData : OrderData) : M Order :=
  cart ← getCart now userId;
  if bool_decide (items cart = []) then throw CartIsEmpty
  else
    '(orderItems, subtotal) ← checkItems (items cart) [] 0%float;
    let shippingCost := calculateShipping subtotal in
    let tax := calculateTax subtotal in
    let total := (subtotal + shippingCost + tax)%float in
    let order :=
      mkOrder None userId orderItems
        (od_shippingAddress orderData)
        (default (od_shippingAddress orderData) (od_billingAddress orderData))
        (od_paymentMethod orderData) "pending"
        pending []
        subtotal shippingCost (default "standard" (od_shippingMethod orderData))
        tax total (od_notes orderData) None None None in
    insertOrder order ;;
    decrementEach orderItems ;;
    clearCart now userId ;;
    mret order.

(** [OrderService.updateOrderStatus] *)
Definition updateOrderStatus (now : Z) (orderId : nat) (status : OrderStatus)
    (note : string) : M OrderDoc :=
  order ← findOrderById orderId;
  match order with
  | None => throw OrderNotFound
  | Some order =>
      let order := mkOrderDoc (updateStatus now status note (paths order)) (cancelReason order) in
      saveOrder orderId order ;;
      mret order
  end.

(** [OrderService.cancelOrder] *)
Definition cancelOrder (now : Z) (orderId : nat) (userId reason : string) : M OrderDoc :=
  order ← findOrder orderId userId;
  match order with
  | None => throw OrderNotFound
  | Some order =>
      if negb (bool_decide (o_status (paths order) ∈ [pending; confirmed]))
      then throw OrderNotCancellable
      else
        restoreEach (o_items (paths order)) ;;
        (* order.status = 'cancelled'; order.cancelReason = reason;
           order.cancelledAt = new Date() *)
        let order := mkOrderDoc (set_cancelledAt (set_status (paths order) cancelled) now)
                                (Some reason) in
        saveOrder orderId order ;;
        mret order
  end.

(** ** Notions used to state the properties *)

(** *** States *)

(** The cart an operation on [identifier] starts from: the stored one, or the
    empty cart [getCart] materialises. *)
Definition cartOf (now : Z) (s : State) (identifier : string) : Cart :=
  default (emptyCart now) (redis s !! identifier).

(** The state [getCart] leaves: an absent cart is stored as the empty cart. *)
Definition materialise (now : Z) (identifier : string) (s : State) : State :=
  match redis s !! identifier with
  | Some _ => s
  | None => mkState (products s) (<[identifier := emptyCart now]> (redis s)) (orders s)
  end.

(** The state [saveCartToRedis] leaves. *)
Definition store (identifier : string) (c : Cart) (s : State) : State :=
  mkState (products s) (<[identifier := c]> (redis s)) (orders s).

(** *** Cart totals *)

(** The sums of the cart invariant, over the lines: the total quantity, and
    the total of unit price times quantity in double arithmetic, the lines
    taken in order from 0, every product and every sum rounded. *)
Fixpoint sum_quantity (l : list CartItem) : Z :=
  match l with
  | [] => 0
  | item :: rest => ci_quantity item + sum_quantity rest
  end.

Fixpoint amount_from (total : float) (l : list CartItem) : float :=
  match l with
  | [] => total
  | item :: rest =>
      amount_from (total + ci_price item * ofQuantity (ci_quantity item))%float rest
  end.

Definition sum_amount (l : list CartItem) : float := amount_from 0 l.

Definition cart_totals_ok (c : Cart) : Prop :=
  totalItems c = sum_quantity (items c) ∧ totalAmount c = sum_amount (items c).




(** Every cart of the store [m'] is a cart of [m] or has consistent totals. *)
Definition carts_ext (m m' : gmap string Cart) : Prop :=
  ∀ identifier c, m' !! identifier = Some c →
    m !! identifier = Some c ∨ cart_totals_ok c.

(** An operation that only adds carts with consistent totals to the store. *)
Definition ext_op {A} (m : M A) : Prop :=
  ∀ s, carts_ext (redis s) (redis (m s).2).

(** *** Cart operations *)

(** The cart operations a client can request. *)
Inductive CartOp :=
  | OpGet (identifier : string)
  | OpAdd (identifier productId : string) (quantity : Z)
  | OpUpdate (identifier productId : string) (quantity : Z)
  | OpRemove (identifier productId : string)
  | OpClear (identifier : string)
  | OpMerge (userId : string) (sessionId : option string).

Definition owner (op : CartOp) : string :=
  match op with
  | OpGet i | OpAdd i _ _ | OpUpdate i _ _ | OpRemove i _ | OpClear i => i
  | OpMerge u _ => u
  end.

Definition served {A} (r : (Error + A) * State) : option A * State :=
  (match r.1 with inr a => Some a | inl _ => None end, r.2).

(** The cart an operation answers with ([None] when it fails) and the state
    it leaves. *)
Definition runCartOp (now : Z) (op : CartOp) (s : State) : option Cart * State :=
  match op with
  | OpGet i => served (getCart now i s)
  | OpAdd i productId q => served (addToCart now i productId q s)
  | OpUpdate i productId q => served (updateCartItem now i productId q s)
  | OpRemove i productId => served (removeFromCart now i productId s)
  | OpClear i => served (clearCart now i s)
  | OpMerge u sid =>
      match mergeCart now u sid s with
      | (MergeOk c, s') => (Some c, s')
      | (_, s') => (None, s')
      end
  end.

(** The bound the request validation ([cartSchemas.addItem]) puts on an added
    quantity. *)
Definition valid_request (op : CartOp) : Prop :=
  match op with
  | OpAdd _ _ quantity => 1 ≤ quantity
  | _ => True
  end.

(** The data model's bound on cart lines: every quantity is at least 1. *)
Definition lines_positive (l : list CartItem) : Prop :=
  Forall (λ item, 1 ≤ ci_quantity item) l.

Definition carts_positive (s : State) : Prop :=
  ∀ identifier c, redis s !! identifier = Some c → lines_positive (items c).

(** *** addLine *)

(** The quantity a cart already holds for a product: that of its first line
    for the product, 0 when there is none. *)
Fixpoint existingQuantity (productId : string) (l : list CartItem) : Z :=
  match l with
  | [] => 0
  | item :: rest =>
      if decide (ci_product item = productId) then ci_quantity item
      else existingQuantity productId rest
  end.

(** [addLine] on the lines of a cart, after the specification: the quantity is
    added to the line of the product, or a new last line is made with the
    product's current final price. *)
Fixpoint addLine_spec (productId : string) (quantity : Z) (p : Product)
    (l : list CartItem) : list CartItem :=
  match l with
  | [] => [mkCartItem productId (p_name p) (finalPrice p) quantity (firstImage p)]
  | item :: rest =>
      if decide (ci_product item = productId)
      then set_quantity item (ci_quantity item + quantity) :: rest
      else item :: addLine_spec productId quantity p rest
  end.

(** *** Orders *)

(** The order subtotal: over the cart lines, in order, the final price the
    catalog holds for the product times the quantity, added to the running
    subtotal in double arithmetic. *)
Fixpoint subtotal_from (catalog : gmap string Product) (subtotal : float)
    (l : list CartItem) : float :=
  match l with
  | [] => subtotal
  | item :: rest =>
      subtotal_from catalog
        (subtotal + from_option finalPrice 0 (catalog !! ci_product item)
                    * ofQuantity (ci_quantity item))%float
        rest
  end.

(** A cart line passes the check of [createOrder]. *)
Definition line_ok (catalog : gmap string Product) (item : CartItem) : Prop :=
  ∃ p, catalog !! ci_product item = Some p ∧ p_isActive p = true ∧
       ci_quantity item ≤ p_stock p.

(** The order line [createOrder] builds from a cart line that passes the
    check. *)
Definition orderItemOf (catalog : gmap string Product) (item : CartItem) : OrderItem :=
  mkOrderItem (ci_product item)
    (from_option p_name "" (catalog !! ci_product item))
    (ci_quantity item)
    (from_option finalPrice 0%float (catalog !! ci_product item))
    (from_option finalPrice 0%float (catalog !! ci_product item)
     * ofQuantity (ci_quantity item))%float.

(** The order document [createOrder] builds from its lines and their subtotal;
    it has no order number. *)
Definition newOrder (userId : string) (orderData : OrderData)
    (orderItems : list OrderItem) (subtotal : float) : Order :=
  mkOrder None userId orderItems
    (od_shippingAddress orderData)
    (default (od_shippingAddress orderData) (od_billingAddress orderData))
    (od_paymentMethod orderData) "pending"
    pending []
    subtotal (calculateShipping subtotal) (default "standard" (od_shippingMethod orderData))
    (calculateTax subtotal)
    (subtotal + calculateShipping subtotal + calculateTax subtotal)%float
    (od_notes orderData) None None None.

(** A stored order: the document with the order number it is stored under. *)
Definition numbered (orderNumber : string) (o : Order) : Order :=
  mkOrder (Some orderNumber) (o_user o) (o_items o)
    (o_shippingAddress o) (o_billingAddress o)
    (o_paymentMethod o) (o_paymentStatus o) (o_status o) (o_statusHistory o)
    (o_subtotal o) (o_shippingCost o) (o_shippingMethod o) (o_tax o) (o_total o)
    (o_notes o) (o_deliveredAt o) (o_cancelledAt o) (o_cancelledReason o).

(** The total quantity an order holds of a product. *)
Fixpoint orderedQuantity (productId : string) (l : list OrderItem) : Z :=
  match l with
  | [] => 0
  | item :: rest =>
      (if decide (oi_product item = productId) then oi_quantity item else 0)
      + orderedQuantity productId rest
  end.

(** ** Sample data *)

Definition productA (stock : Z) : Product :=
  mkProduct "Lamp" 100 80 stock true ["http://img/a.png"].
Definition productB (stock : Z) : Product :=
  mkProduct "Desk" 450 0 stock true [].
Definition productC (stock : Z) : Product :=
  mkProduct "Chair" 60 0 stock true [].

Definition lineA (q : Z) : CartItem := mkCartItem "A" "Lamp" 80 q (Some "http://img/a.png").
Definition lineB (q : Z) : CartItem := mkCartItem "B" "Desk" 450 q None.
Definition lineC (q : Z) : CartItem := mkCartItem "C" "Chair" 60 q None.

Definition cartWith (l : list CartItem) : Cart :=
  calculateCartTotals 0 (mkCart l 0 0 0).

Definition sampleOrderData : OrderData :=
  mkOrderData "1 Main St" None "credit_card" None None.

(** Product A with a stock of 3. *)
Definition stockState : State :=
  mkState {[ "A" := productA 3 ]} ∅ [].

(** A cart of actor "u" with two units of A. *)
Definition cartState : State :=
  mkState {[ "A" := productA 5; "B" := productB 5 ]}
          {[ "u" := cartWith [lineA 2] ]} [].

(** A cart with a line whose product is no longer in the catalog. *)
Definition orphanState : State :=
  mkState {[ "A" := productA 5 ]}
          {[ "u" := cartWith [lineA 2; mkCartItem "gone" "Vase" 30 1 None] ]} [].

(** A session cart whose second line asks for more than the stock holds. *)
Definition mergeState : State :=
  mkState {[ "A" := productA 1; "B" := productB 5; "C" := productC 5 ]}
          {[ "sess" := cartWith [lineB 1; lineA 2; lineC 1] ]} [].

(** A cart with two lines for one product, each within the stock. *)
Definition dupState : State :=
  mkState {[ "A" := productA 3 ]} {[ "u" := cartWith [lineA 2; lineA 2] ]} [].


(** A cart whose second line exceeds the stock. *)
Definition shortState : State :=
  mkState {[ "A" := productA 5; "B" := productB 0 ]}
          {[ "u" := cartWith [lineA 2; lineB 1] ]} [].

(** A cart whose frozen line price (80) differs from the catalog's current
    final price (100, the discount is gone). *)
Definition repricedState : State :=
  mkState {[ "A" := mkProduct "Lamp" 100 0 5 true [] ]}
          {[ "u" := cartWith [lineA 3] ]} [].

(** A stored pending order of user "u" with lines A x 2 and B x 1. *)
Definition sampleOrder : Order :=
  numbered "ORD-1"
    (newOrder "u" sampleOrderData
       [mkOrderItem "A" "Lamp" 2 80 160; mkOrderItem "B" "Desk" 1 450 450] 610).

Definition orderState : State :=
  mkState {[ "A" := productA 3; "B" := productB 0 ]} ∅ [sampleOrder].

(** ** Further notions: cart store *)

(** The identifiers whose carts an operation may write. *)
Definition touched (op : CartOp) : list string :=
  match op with
  | OpMerge userId (Some sessionId) => [userId; sessionId]
  | _ => [owner op]
  end.

(** An operation that leaves the catalog, the orders and every cart outside
    [ids] as they are. *)
Definition frame_op {A} (ids : list string) (m : M A) : Prop :=
  ∀ s, products (m s).2 = products s ∧
       orders (m s).2 = orders s ∧
       ∀ j, j ∉ ids → redis (m s).2 !! j = redis s !! j.

(** No two lines of a cart carry the same product id. *)
Definition lines_distinct (l : list CartItem) : Prop :=
  NoDup (ci_product <$> l).

Definition carts_distinct (s : State) : Prop :=
  ∀ identifier c, redis s !! identifier = Some c → lines_distinct (items c).

(** A sequence of timed requests, served one after the other; failed requests
    are answered and the next one is served. *)
Definition runCartOps (requests : list (Z * CartOp)) (s : State) : State :=
  foldl (λ s r, (runCartOp r.1 r.2 s).2) s requests.

(** Requests of actor "u" on [cartState]. *)
Definition sampleRequests : list (Z * CartOp) :=
  [(1, OpAdd "u" "B" 2); (2, OpAdd "u" "A" 1); (3, OpUpdate "u" "B" 0);
   (4, OpAdd "v" "A" 9); (5, OpMerge "v" (Some "u"))].

(** ** Further operations: product service and product model *)

Definition set_isActive (p : Product) (b : bool) : Product :=
  mkProduct (p_name p) (p_price p) (p_discountPrice p) (p_stock p) b (p_images p).

(** [ProductService.deleteProduct]: a soft delete, the document stays. *)
Definition deleteProduct (productId : string) : M unit :=
  product ← findById productId;
  match product with
  | None => throw ProductNotFound
  | Some product =>
      saveProduct productId (set_isActive product false) ;;
      mret tt
  end.

(** The two errors of [ProductService.getProductById]. *)
Inductive LookupError :=
  | LookupNotFound      (* 'Product not found' *)
  | LookupNotActive.    (* 'Product is not active' *)

(** [ProductService.getProductById]: a read, the state is not changed. *)
Definition getProductById (productId : string) (s : State) : LookupError + Product :=
  match products s !! productId with
  | None => inl LookupNotFound
  | Some product => if negb (p_isActive product) then inl LookupNotActive else inr product
  end.

(** The validators of [productSchema] on the two prices: [min: 0] on both, and
    on the discount price [!value || value < this.price]. *)
Definition prices_valid (p : Product) : Prop :=
  (0 <=? p_price p)%float = true ∧ (0 <=? p_discountPrice p)%float = true ∧
  (isFalsy (p_discountPrice p) = true ∨
   (p_discountPrice p <? p_price p)%float = true).

Definition catalog_valid (s : State) : Prop :=
  ∀ productId p, products s !! productId = Some p → prices_valid p.

(** A cart of actor "u" with a line for B, in a catalog that holds B. *)
Definition twoLineState : State :=
  mkState {[ "A" := productA 5; "B" := productB 5 ]}
          {[ "u" := cartWith [lineA 2; lineB 1] ]} [].

(** ** Further operations: order service *)

(** [OrderService.getOrderById] (the populated fields are left out). *)
Definition getOrderById (orderId : nat) (userId : string) : M OrderDoc :=
  order ← findOrder orderId userId;
  match order with
  | None => throw OrderNotFound
  | Some order => mret order
  end.

(** The [pagination] object of the list results. *)
Record Pagination := mkPagination {
  pg_currentPage : Z;
  pg_totalPages : Z;
  pg_totalItems : Z;
  pg_itemsPerPage : Z
}.

(** [Math.ceil(total / limit)] for a count [total] and a limit of at least 1. *)
Definition ceilDiv (total limit : Z) : Z := (total + limit - 1) / limit.

(** [Order.find({ user: userId }).sort({ createdAt: -1 })]: the orders of the
    user, newest first.  [createdAt] is the time of the insertion, so newest
    first is the reverse of the order of insertion. *)
Definition ordersOf (userId : string) (s : State) : list Order :=
  reverse (filter (λ o, o_user o = userId) (orders s)).

(** [OrderService.getUserOrders]: [.skip((page - 1) * limit).limit(limit)] on
    the sorted orders of the user, with the pagination data; for a page and a
    limit of at least 1. *)
Definition getUserOrders (userId : string) (page limit : Z) (s : State)
    : list Order * Pagination :=
  let skip := (page - 1) * limit in
  let found := take (Z.to_nat limit) (drop (Z.to_nat skip) (ordersOf userId s)) in
  let total := Z.of_nat (length (ordersOf userId s)) in
  (found, mkPagination page (ceilDiv total limit) total limit).

(** The requests that write orders. *)
Inductive OrderOp :=
  | OpCreate (userId : string) (orderData : OrderData)
  | OpStatus (orderId : nat) (status : OrderStatus) (note : string)
  | OpCancel (orderId : nat) (userId reason : string).

Definition runOrderOp (now : Z) (op : OrderOp) (s : State) : State :=
  match op with
  | OpCreate userId orderData => (createOrder now userId orderData s).2
  | OpStatus orderId status note => (updateOrderStatus now orderId status note s).2
  | OpCancel orderId userId reason => (cancelOrder now orderId userId reason s).2
  end.

(** Two versions of an order with the same owner, lines, addresses, payment
    method and amounts. *)
Definition same_commercials (o o' : Order) : Prop :=
  o_user o' = o_user o ∧ o_items o' = o_items o ∧
  o_shippingAddress o' = o_shippingAddress o ∧
  o_billingAddress o' = o_billingAddress o ∧
  o_paymentMethod o' = o_paymentMethod o ∧
  o_subtotal o' = o_subtotal o ∧ o_shippingCost o' = o_shippingCost o ∧
  o_tax o' = o_tax o ∧ o_total o' = o_total o.

Definition runOrderOps (requests : list (Z * OrderOp)) (s : State) : State :=
  foldl (λ s r, runOrderOp r.1 r.2 s) s requests.

(** On [orderState]: a new order of "u" is requested, the stored order is
    shipped, and a cancellation is then attempted. *)
Definition sampleOrderRequests : list (Z * OrderOp) :=
  [(1, OpCreate "u" sampleOrderData); (2, OpStatus 0 shipped "on its way");
   (3, OpCancel 0 "u" "too late")].

(** The catalog and the order of [orderState], the order already shipped. *)
Definition shippedState : State :=
  mkState {[ "A" := productA 3; "B" := productB 0 ]} ∅
          [set_status sampleOrder shipped].

(** Five stored orders, three of them of user "u". *)
Definition listingState : State :=
  mkState ∅ ∅
    [numbered "ORD-1" (newOrder "u" sampleOrderData [] 1);
     numbered "ORD-2" (newOrder "v" sampleOrderData [] 2);
     numbered "ORD-3" (newOrder "u" sampleOrderData [] 3);
     numbered "ORD-4" (newOrder "u" sampleOrderData [] 4);
     numbered "ORD-5" (newOrder "w" sampleOrderData [] 5)].

(** The error [createOrder] raises for a cart line that does not pass the
    check: a missing or inactive product is named after the cart line, a
    product short of stock after the catalog. *)
Definition lineError (catalog : gmap string Product) (item : CartItem) : Error :=
  match catalog !! ci_product item with
  | None => ProductNotFoundNamed (ci_name item)
  | Some p =>
      if p_isActive p then InsufficientStockNamed (p_name p)
      else ProductNotFoundNamed (ci_name item)
  end.

(** ** Further operations: password strength ([utils/bcrypt.js])

    A password is its sequence of UTF-16 code units, so that its length is
    [password.length] and the four regular expressions, which have no flags,
    test code units. *)

Record Requirements := mkRequirements {
  minLength : bool;
  hasLowerCase : bool;
  hasUpperCase : bool;
  hasNumbers : bool;
  hasSpecialChars : bool
}.

Inductive Strength := Weak | Medium | Strong.

Record StrengthResult := mkStrengthResult {
  score : Z;
  requirements : Requirements;
  strength : Strength
}.

Definition inRange (lo hi c : N) : bool := ((lo <=? c) && (c <=? hi))%N.

Definition isLowerCase (c : N) : bool := inRange 97 122 c.   (* [a-z] *)
Definition isUpperCase (c : N) : bool := inRange 65 90 c.    (* [A-Z] *)
Definition isNumber (c : N) : bool := inRange 48 57 c.       (* \d *)

(** The nineteen characters of the class of the last regular expression, by
    code, in the order they are written there (from the exclamation mark, 33,
    to the greater-than sign, 62). *)
Definition specialChars : list N :=
  [33; 64; 35; 36; 37; 38; 42; 40; 41; 44; 46; 63; 34; 58; 123; 125; 124; 60; 62]%N.

Definition isSpecialChar (c : N) : bool := bool_decide (c ∈ specialChars).

(** [BcryptUtils.checkPasswordStrength] *)
Definition checkPasswordStrength (password : list N) : StrengthResult :=
  let requirements :=
    mkRequirements (8 <=? Z.of_nat (length password))
                   (existsb isLowerCase password)
                   (existsb isUpperCase password)
                   (existsb isNumber password)
                   (existsb isSpecialChar password) in
  (* Object.values(result.requirements).forEach(c => { if (c) result.score++ }) *)
  let score :=
    foldl (λ score (c : bool), if c then score + 1 else score) 0
          [minLength requirements; hasLowerCase requirements; hasUpperCase requirements;
           hasNumbers requirements; hasSpecialChars requirements] in
  let strength :=
    if score <? 3 then Weak else if score <? 4 then Medium else Strong in
  mkStrengthResult score requirements strength.

(** The code units of a string of ASCII characters. *)
Definition codeUnits (s : string) : list N :=
  Ascii.N_of_ascii <$> String.list_ascii_of_string s.

Definition rank (s : Strength) : Z :=
  match s with Weak => 0 | Medium => 1 | Strong => 2 end.

(** ** Properties *)

Ltac munfold :=
  unfold mbind, M_bind, mret, M_ret, throw, findById, saveProduct, redisGet,
    saveCartToRedis, insertOrder, saveOrder, findOrderById, findOrder in *;
  simpl in *.

Section StockLedger.

Lemma updateStock_found s productId p quantity :
  products s !! productId = Some p →
  updateStock productId quantity s =
    if p_stock p + quantity <? 0 then (inl InsufficientStock, s)
    else (inr (p_stock p + quantity),
          with_products s (<[productId := set_stock p (p_stock p + quantity)]> (products s))).
Proof.
  intros Hp. unfold updateStock. munfold. rewrite Hp.
  destruct (p_stock p + quantity <? 0); reflexivity.
Qed.

Lemma updateStock_missing s productId quantity :
  products s !! productId = None →
  updateStock productId quantity s = (inl ProuctNotFound, s).
Proof. intros Hp. unfold updateStock. munfold. by rewrite Hp. Qed.

Lemma updateStock_nonneg s productId quantity :
  stocks_nonneg s → stocks_nonneg (snd (updateStock productId quantity s)).
Proof.
  intros Hs. destruct (products s !! productId) as [p|] eqn:Hp.
  - rewrite (updateStock_found _ _ _ _ Hp).
    destruct (Z.ltb_spec (p_stock p + quantity) 0); [done|].
    intros k p' Hk. simpl in Hk.
    destruct (decide (productId = k)) as [->|Hne].
    + rewrite lookup_insert_eq in Hk. by simplify_eq.
    + rewrite lookup_insert_ne in Hk by done. eauto.
  - by rewrite updateStock_missing.
Qed.

Lemma runStockCalls_nonneg cs : ∀ s, stocks_nonneg s → stocks_nonneg (runStockCalls cs s).
Proof.
  induction cs as [|c cs IH]; intros s Hs; [done|].
  simpl. apply IH. destruct c; apply updateStock_nonneg, Hs.
Qed.

End StockLedger.

(** ** Stock ledger (C2) *)

(** C2. Stock non-negativity: from a ledger with no negative quantity, after
    every sequence of decrement and increment calls the available quantity of
    every product is at least 0; a decrement whose result would be negative
    fails with [InsufficientStock] and leaves the state unchanged, and any
    other decrement is applied and returns the new quantity. *)
Theorem stock_never_negative (cs : list StockCall) (s : State)
    (productId : string) (p : Product) (amount : Z) :
  stocks_nonneg s →
  products (runStockCalls cs s) !! productId = Some p →
  0 ≤ p_stock p ∧
  (p_stock p - amount < 0 →
     decrement productId amount (runStockCalls cs s)
     = (inl InsufficientStock, runStockCalls cs s)) ∧
  (0 ≤ p_stock p - amount →
     ∃ s', decrement productId amount (runStockCalls cs s)
           = (inr (p_stock p - amount), s')
           ∧ available s' productId = Some (p_stock p - amount)).
Proof.
  intros Hs Hp. pose proof (runStockCalls_nonneg cs s Hs) as Hs'.
  split; [by eapply Hs'|]. unfold decrement.
  rewrite (updateStock_found _ _ _ _ Hp).
  replace (p_stock p + - amount) with (p_stock p - amount) by lia.
  split; intros Ha.
  - by rewrite (proj2 (Z.ltb_lt _ _) Ha).
  - rewrite (proj2 (Z.ltb_ge _ _) Ha). eexists; split; [done|].
    unfold available. simpl. by rewrite lookup_insert_eq.
Qed.

Lemma stock_never_negative_witness :
  stocks_nonneg stockState ∧
  products (runStockCalls [Decrement "A" 2; Decrement "A" 5; Increment "A" 4] stockState)
    !! "A" = Some (productA 5) ∧
  (5 - 9 < 0 →
     decrement "A" 9 (runStockCalls [Decrement "A" 2; Decrement "A" 5; Increment "A" 4] stockState)
     = (inl InsufficientStock,
        runStockCalls [Decrement "A" 2; Decrement "A" 5; Increment "A" 4] stockState)).
Proof.
  assert (H1 : stocks_nonneg stockState).
  { intros k p Hk. simpl in Hk. apply lookup_singleton_Some in Hk as [_ <-]. simpl. lia. }
  assert (H2 : products (runStockCalls [Decrement "A" 2; Decrement "A" 5; Increment "A" 4] stockState)
                 !! "A" = Some (productA 5)) by (vm_compute; reflexivity).
  split; [exact H1|]. split; [exact H2|].
  exact (proj1 (proj2 (stock_never_negative _ _ _ _ 9 H1 H2))).
Defined.

(** ** Cart store *)

Section CartStore.

Lemma getCart_eq now identifier s :
  getCart now identifier s = (inr (cartOf now s identifier), materialise now identifier s).
Proof.
  unfold getCart, cartOf, materialise. munfold.
  by destruct (redis s !! identifier).
Qed.

Lemma materialise_lookup now identifier s :
  redis (materialise now identifier s) !! identifier = Some (cartOf now s identifier).
Proof.
  unfold materialise, cartOf.
  destruct (redis s !! identifier) eqn:E; simpl; [done|]. by rewrite lookup_insert_eq.
Qed.

Lemma materialise_products now identifier s :
  products (materialise now identifier s) = products s.
Proof. unfold materialise. by destruct (redis s !! identifier). Qed.

Lemma materialise_orders now identifier s :
  orders (materialise now identifier s) = orders s.
Proof. unfold materialise. by destruct (redis s !! identifier). Qed.

Lemma foldl_quantity l : ∀ a,
  foldl (λ total item, total + ci_quantity item) a l = a + sum_quantity l.
Proof.
  induction l as [|x l IH]; intros a; simpl; [lia|]. rewrite IH. lia.
Qed.

Lemma foldl_amount l : ∀ a,
  foldl (λ total item, (total + ci_price item * ofQuantity (ci_quantity item))%float) a l
  = amount_from a l.
Proof.
  induction l as [|x l IH]; intros a; simpl; [done|]. by rewrite IH.
Qed.

Lemma calculateCartTotals_ok now c : cart_totals_ok (calculateCartTotals now c).
Proof.
  split; simpl.
  - by rewrite foldl_quantity.
  - by rewrite foldl_amount.
Qed.

Lemma calculateCartTotals_items now c : items (calculateCartTotals now c) = items c.
Proof. done. Qed.

Lemma emptyCart_ok now : cart_totals_ok (emptyCart now).
Proof. split; simpl; [done|reflexivity]. Qed.

Lemma carts_ext_refl m : carts_ext m m.
Proof. intros i c Hc. by left. Qed.





End CartStore.

Section AddToCart.

Lemma findIndex_cons productId x l :
  findIndex productId (x :: l) =
    if decide (ci_product x = productId) then Some (0%nat, x)
    else prod_map S id <$> findIndex productId l.
Proof. done. Qed.

Lemma findIndex_None_spec productId quantity p l :
  findIndex productId l = None →
  existingQuantity productId l = 0 ∧
  addLine_spec productId quantity p l =
    l ++ [mkCartItem productId (p_name p) (finalPrice p) quantity (firstImage p)].
Proof.
  induction l as [|x l IH]; [done|].
  rewrite findIndex_cons. simpl. destruct (decide (ci_product x = productId)); [done|].
  intros H. destruct (findIndex productId l) eqn:E; [done|].
  destruct (IH eq_refl) as [-> ->]. done.
Qed.

Lemma findIndex_Some_spec productId quantity p l : ∀ i existing,
  findIndex productId l = Some (i, existing) →
  existingQuantity productId l = ci_quantity existing ∧
  addLine_spec productId quantity p l =
    <[i := set_quantity existing (ci_quantity existing + quantity)]> l.
Proof.
  induction l as [|x l IH]; intros i existing; [done|].
  rewrite findIndex_cons. simpl. destruct (decide (ci_product x = productId)).
  - intros [= <- <-]. done.
  - destruct (findIndex productId l) as [[j y]|] eqn:E; [|done].
    intros [= <- <-]. destruct (IH j y eq_refl) as [-> ->]. done.
Qed.

Lemma findIndex_Some_stored now s identifier productId i existing :
  findIndex productId (items (cartOf now s identifier)) = Some (i, existing) →
  materialise now identifier s = s.
Proof.
  unfold cartOf, materialise. by destruct (redis s !! identifier).
Qed.

(** The outcomes of [addToCart] for a product that is present and active. *)
Lemma addToCart_active now identifier productId quantity s p :
  products s !! productId = Some p → p_isActive p = true →
  addToCart now identifier productId quantity s =
    if p_stock p <? quantity then (inl InsufficientStock, s)
    else
      let cart := cartOf now s identifier in
      match findIndex productId (items cart) with
      | Some (i, existing) =>
          if p_stock p <? ci_quantity existing + quantity
          then (inl InsufficientStock, s)
          else
            let c' := calculateCartTotals now
                        (set_items cart
                           (<[i := set_quantity existing (ci_quantity existing + quantity)]>
                              (items cart))) in
            (inr c', store identifier c' (materialise now identifier s))
      | None =>
          let c' := calculateCartTotals now
                      (set_items cart
                         (items cart ++
                          [mkCartItem productId (p_name p) (finalPrice p) quantity
                                      (firstImage p)])) in
          (inr c', store identifier c' (materialise now identifier s))
      end.
Proof.
  intros Hp Hact. unfold addToCart.
  unfold mbind at 1. unfold M_bind. unfold findById. rewrite Hp, Hact. simpl.
  destruct (p_stock p <? quantity); [done|].
  unfold mbind at 1. unfold M_bind. rewrite getCart_eq.
  destruct (findIndex productId (items (cartOf now s identifier))) as [[i existing]|] eqn:E.
  - unfold mbind, M_bind, mret, M_ret, throw, saveCartToRedis, store.
    destruct (p_stock p <? ci_quantity existing + quantity); [|done].
    by rewrite (findIndex_Some_stored _ _ _ _ _ _ E).
  - by unfold mbind, M_bind, mret, M_ret, throw, saveCartToRedis, store.
Qed.

Lemma addToCart_unavailable now identifier productId quantity s :
  (products s !! productId = None ∨
   ∃ p, products s !! productId = Some p ∧ p_isActive p = false) →
  addToCart now identifier productId quantity s = (inl ProductNotFound, s).
Proof.
  intros [Hp|(p & Hp & Hact)]; unfold addToCart; munfold; rewrite Hp; [done|].
  by rewrite Hact.
Qed.

End AddToCart.

(** ** addLine (C8) *)



Section UpdateAndRemove.

Lemma updateCartItem_absent now identifier productId quantity s :
  findIndex productId (items (cartOf now s identifier)) = None →
  updateCartItem now identifier productId quantity s
  = (inl ProductNotInCart, materialise now identifier s).
Proof.
  intros E. unfold updateCartItem. unfold mbind at 1. unfold M_bind.
  rewrite getCart_eq. by rewrite E.
Qed.

Lemma updateCartItem_present now identifier productId quantity s i existing :
  findIndex productId (items (cartOf now s identifier)) = Some (i, existing) →
  updateCartItem now identifier productId quantity s =
    let cart := cartOf now s identifier in
    let updated := calculateCartTotals now
                     (set_items cart (<[i := set_quantity existing quantity]> (items cart))) in
    if quantity <=? 0 then
      let c' := calculateCartTotals now (set_items cart (delete i (items cart))) in
      (inr c', store identifier c' s)
    else
      match products s !! productId with
      | Some p =>
          if p_stock p <? quantity then (inl InsufficientStock, s)
          else (inr updated, store identifier updated s)
      | None => (inr updated, store identifier updated s)
      end.
Proof.
  intros E. unfold updateCartItem. unfold mbind at 1. unfold M_bind.
  rewrite getCart_eq, E, (findIndex_Some_stored _ _ _ _ _ _ E).
  unfold mbind, M_bind, mret, M_ret, throw, saveCartToRedis, store, findById.
  destruct (quantity <=? 0); [done|].
  destruct (products s !! productId) as [p|]; [|done].
  by destruct (p_stock p <? quantity).
Qed.

Lemma removeFromCart_eq now identifier productId s :
  removeFromCart now identifier productId s =
    let cart := cartOf now s identifier in
    let c' := calculateCartTotals now
                (set_items cart (filter (λ item, ci_product item ≠ productId) (items cart))) in
    (inr c', store identifier c' (materialise now identifier s)).
Proof.
  unfold removeFromCart. unfold mbind at 1. unfold M_bind. by rewrite getCart_eq.
Qed.


Lemma filter_absent productId (l : list CartItem) :
  Forall (λ item, ci_product item ≠ productId) l →
  filter (λ item, ci_product item ≠ productId) l = l.
Proof.
  induction 1 as [|x l Hx _ IH]; [done|].
  rewrite filter_cons. destruct (decide (ci_product x ≠ productId)); [|done].
  by rewrite IH.
Qed.

End UpdateAndRemove.

(** ** updateLine on a product gone from the catalog (C10) *)

(** C10. For a quantity above 0, [updateCartItem] on a product that has a line
    in the cart but no document in the catalog makes no stock check: for every
    such quantity it succeeds, and the stored and returned cart has that line
    set to the new quantity. *)
Theorem updateCartItem_missing_product now identifier productId quantity s i existing :
  0 < quantity →
  findIndex productId (items (cartOf now s identifier)) = Some (i, existing) →
  products s !! productId = None →
  ∃ c', updateCartItem now identifier productId quantity s = (inr c', store identifier c' s) ∧
        items c' = <[i := set_quantity existing quantity]> (items (cartOf now s identifier)) ∧
        ci_quantity <$> items c' !! i = Some quantity.
Proof.
  intros Hq E Hp. rewrite (updateCartItem_present _ _ _ _ _ _ _ E), Hp. cbv zeta.
  rewrite (proj2 (Z.leb_gt _ _)) by lia.
  eexists; split; [done|]. split; [done|]. simpl.
  apply list_find_Some in E as (Hi & _).
  rewrite list_lookup_insert_eq; [done|]. by eapply lookup_lt_Some.
Qed.

Lemma updateCartItem_missing_product_witness :
  0 < 1000 ∧
  findIndex "gone" (items (cartOf 7 orphanState "u"))
    = Some (1%nat, mkCartItem "gone" "Vase" 30 1 None) ∧
  products orphanState !! "gone" = None ∧
  ∃ c', updateCartItem 7 "u" "gone" 1000 orphanState = (inr c', store "u" c' orphanState) ∧
        items c' = [lineA 2; mkCartItem "gone" "Vase" 30 1000 None] ∧
        ci_quantity <$> items c' !! 1%nat = Some 1000.
Proof.
  split; [lia|]. split; [vm_compute; reflexivity|]. split; [vm_compute; reflexivity|].
  exact (updateCartItem_missing_product 7 "u" "gone" 1000 orphanState 1
           (mkCartItem "gone" "Vase" 30 1 None) ltac:(lia) eq_refl eq_refl).
Defined.

(** ** Removal of an absent line (C5) *)

(** C5, as stated, fails for [updateCartItem]: with no line for product "B"
    in the cart, a request with quantity 0 is answered with
    'Product not found in cart'; the guard on [itemIndex === -1] comes before
    the test of the quantity. *)
Lemma updateCartItem_absent_line_counterexample :
  Forall (λ item, ci_product item ≠ "B") (items (cartOf 7 cartState "u")) ∧
  updateCartItem 7 "u" "B" 0 cartState = (inl ProductNotInCart, cartState).
Proof.
  split; [|vm_compute; reflexivity].
  apply Forall_cons; split; [discriminate|apply Forall_nil_2].
Qed.

(** C5, amended. For a product with no line in the actor's cart:
    [removeFromCart] succeeds and stores a cart with the same lines and, when
    the totals were consistent, the same totals (only [lastUpdated] is
    refreshed); [updateCartItem] fails with [ProductNotInCart] for every
    quantity, also for a quantity of 0 or less, and writes nothing but the
    empty cart [getCart] materialises for an actor without one. *)
Theorem absent_line_removal now identifier productId s :
  Forall (λ item, ci_product item ≠ productId) (items (cartOf now s identifier)) →
  (∃ c', removeFromCart now identifier productId s
           = (inr c', store identifier c' (materialise now identifier s)) ∧
         items c' = items (cartOf now s identifier) ∧
         lastUpdated c' = now ∧
         (cart_totals_ok (cartOf now s identifier) →
            totalItems c' = totalItems (cartOf now s identifier) ∧
            totalAmount c' = totalAmount (cartOf now s identifier))) ∧
  (∀ quantity,
     updateCartItem now identifier productId quantity s
     = (inl ProductNotInCart, materialise now identifier s)).
Proof.
  intros Habs. split.
  - rewrite removeFromCart_eq. cbv zeta. eexists; split; [done|].
    rewrite calculateCartTotals_items. simpl.
    rewrite (filter_absent _ _ Habs). split; [done|]. split; [done|].
    intros [Hi Ha]. split.
    + by rewrite foldl_quantity, Hi.
    + by rewrite foldl_amount, Ha.
  - intros quantity. apply updateCartItem_absent. by apply list_find_None.
Qed.

Lemma absent_line_removal_witness :
  Forall (λ item, ci_product item ≠ "B") (items (cartOf 7 cartState "u")) ∧
  (∃ c', removeFromCart 7 "u" "B" cartState
           = (inr c', store "u" c' (materialise 7 "u" cartState)) ∧
         items c' = [lineA 2]) ∧
  updateCartItem 7 "u" "B" (-1) cartState
    = (inl ProductNotInCart, materialise 7 "u" cartState).
Proof.
  assert (H : Forall (λ item, ci_product item ≠ "B") (items (cartOf 7 cartState "u"))).
  { apply Forall_cons; split; [discriminate|apply Forall_nil_2]. }
  split; [exact H|].
  destruct (absent_line_removal 7 "u" "B" cartState H) as [(c' & Hr & Hi & _) Hu].
  split; [|exact (Hu (-1))].
  exists c'. split; [exact Hr|exact Hi].
Defined.

(** ** Writes to the cart store *)

Section StoreWrites.


Lemma ext_throw {A} e : ext_op (@throw A e).
Proof. intros s. apply carts_ext_refl. Qed.











End StoreWrites.

(** ** Merging the session cart *)

Section Merge.

Lemma addToCart_failure_state now identifier productId quantity s e :
  (addToCart now identifier productId quantity s).1 = inl e →
  (addToCart now identifier productId quantity s).2 = s.
Proof.
  destruct (products s !! productId) as [p|] eqn:Hp.
  - destruct (p_isActive p) eqn:Hact.
    + rewrite (addToCart_active _ _ _ _ _ _ Hp Hact). cbv zeta.
      repeat case_match; simplify_eq/=; done.
    + by rewrite addToCart_unavailable by (right; eauto).
  - by rewrite addToCart_unavailable by (by left).
Qed.

Lemma materialise_other now identifier other s :
  other ≠ identifier →
  redis (materialise now identifier s) !! other = redis s !! other.
Proof.
  intros Hne. unfold materialise. destruct (redis s !! identifier); [done|].
  simpl. by rewrite lookup_insert_ne.
Qed.

Lemma addToCart_other now identifier other productId quantity s :
  other ≠ identifier →
  redis (addToCart now identifier productId quantity s).2 !! other = redis s !! other.
Proof.
  intros Hne. destruct (products s !! productId) as [p|] eqn:Hp.
  - destruct (p_isActive p) eqn:Hact.
    + rewrite (addToCart_active _ _ _ _ _ _ Hp Hact). cbv zeta.
      repeat case_match; simplify_eq/=; try done;
        (rewrite lookup_insert_ne by done; by apply materialise_other).
    + by rewrite addToCart_unavailable by (right; eauto).
  - by rewrite addToCart_unavailable by (by left).
Qed.

Lemma addEach_cons now userId x l s :
  addEach now userId (x :: l) s =
    match addToCart now userId (ci_product x) (ci_quantity x) s with
    | (inl e, s') => (inl e, s')
    | (inr _, s') => addEach now userId l s'
    end.
Proof.
  unfold addEach. simpl. unfold mbind, M_bind, mret, M_ret.
  by destruct (addToCart now userId (ci_product x) (ci_quantity x) s) as [[e|c] s'].
Qed.

Lemma addEach_other now userId other l : ∀ s,
  other ≠ userId → redis (addEach now userId l s).2 !! other = redis s !! other.
Proof.
  induction l as [|x l IH]; intros s Hne; [done|].
  rewrite addEach_cons.
  pose proof (addToCart_other now userId other (ci_product x) (ci_quantity x) s Hne) as Hx.
  destruct (addToCart now userId (ci_product x) (ci_quantity x) s) as [[e|c] s']; [done|].
  simpl in Hx. by rewrite IH.
Qed.

Lemma addEach_app now userId pre l : ∀ s,
  addEach now userId (pre ++ l) s =
    match addEach now userId pre s with
    | (inl e, s') => (inl e, s')
    | (inr _, s') => addEach now userId l s'
    end.
Proof.
  induction pre as [|x pre IH]; intros s; [done|].
  simpl. rewrite !addEach_cons.
  destruct (addToCart now userId (ci_product x) (ci_quantity x) s) as [[e|c] s']; [done|].
  apply IH.
Qed.

(** The loop stops at the first item [addToCart] rejects, in the state the
    items before it have left. *)
Lemma addEach_first_failure now userId pre item post s s2 e :
  addEach now userId pre s = (inr tt, s2) →
  (addToCart now userId (ci_product item) (ci_quantity item) s2).1 = inl e →
  addEach now userId (pre ++ item :: post) s = (inl e, s2).
Proof.
  intros Hpre Hfail. rewrite addEach_app, Hpre, addEach_cons.
  pose proof (addToCart_failure_state _ _ _ _ _ _ Hfail) as Hst.
  destruct (addToCart now userId (ci_product item) (ci_quantity item) s2) as [[e'|c] s'];
    simpl in *; by simplify_eq.
Qed.

Lemma mergeBody_eq now userId sessionId s :
  mergeBody now userId sessionId s =
    let sessionCart := cartOf now s sessionId in
    let s1 := materialise now sessionId s in
    if bool_decide (items sessionCart = []) then getCart now userId s1
    else
      match addEach now userId (items sessionCart) s1 with
      | (inl e, s2) => (inl e, s2)
      | (inr _, s2) => getCart now userId (store sessionId (emptyCart now) s2)
      end.
Proof.
  unfold mergeBody. unfold mbind at 1. unfold M_bind at 1. rewrite getCart_eq. cbv zeta.
  case_bool_decide; [done|].
  unfold mbind, M_bind, mret, M_ret.
  by destruct (addEach now userId (items (cartOf now s sessionId))
                 (materialise now sessionId s)) as [[e|[]] s2].
Qed.

End Merge.

(** ** Cart merge (C6) *)

(** C6, as stated, fails: the session cart holds lines for B, A and C, and
    only the line for A exceeds the stock.  The merge is answered with the
    merge error, the line for C is not merged although its stock suffices, and
    the session cart is not cleared. *)
Lemma mergeCart_skip_counterexample :
  ∃ s', mergeCart 7 "user" (Some "sess") mergeState = (MergeError, s') ∧
        (addToCart 7 "user" "C" 1 s').1 ≠ inl InsufficientStock ∧
        findIndex "C" (items (cartOf 7 s' "user")) = None ∧
        items (cartOf 7 s' "sess") = [lineB 1; lineA 2; lineC 1].
Proof.
  eexists. split; [vm_compute; reflexivity|].
  split; [vm_compute; discriminate|]. split; vm_compute; reflexivity.
Qed.

(** C6, amended. The merge adds the lines of the session cart to the user
    cart in order and is not atomic, but it stops at the first line
    [addToCart] rejects: the answer is the merge error with no per-line
    result, the state is the one left by the lines before the rejected one
    (they stay merged, the later ones are not tried), and the session cart is
    not cleared.  When no line is rejected the session cart is cleared and the
    answer is the user's cart. *)
Theorem mergeCart_stops_at_first_failure now userId sessionId s :
  sessionId ≠ "" →
  (∀ pre item post e s2,
     items (cartOf now s sessionId) = pre ++ item :: post →
     addEach now userId pre (materialise now sessionId s) = (inr tt, s2) →
     (addToCart now userId (ci_product item) (ci_quantity item) s2).1 = inl e →
     mergeCart now userId (Some sessionId) s = (MergeError, s2) ∧
     (sessionId ≠ userId → redis s2 !! sessionId = Some (cartOf now s sessionId))) ∧
  (∀ s2,
     items (cartOf now s sessionId) ≠ [] →
     addEach now userId (items (cartOf now s sessionId)) (materialise now sessionId s)
       = (inr tt, s2) →
     mergeCart now userId (Some sessionId) s
     = (MergeOk (cartOf now (store sessionId (emptyCart now) s2) userId),
        materialise now userId (store sessionId (emptyCart now) s2))).
Proof.
  intros Hsid. split.
  - intros pre item post e s2 Hitems Hpre Hfail.
    unfold mergeCart. rewrite decide_False by done.
    rewrite mergeBody_eq. cbv zeta. rewrite bool_decide_false
      by (rewrite Hitems; by destruct pre).
    rewrite Hitems, (addEach_first_failure _ _ _ _ _ _ _ _ Hpre Hfail).
    split; [done|]. intros Hne.
    pose proof (addEach_other now userId sessionId pre
                  (materialise now sessionId s) Hne) as Ho.
    rewrite Hpre in Ho. simpl in Ho. rewrite Ho. apply materialise_lookup.
  - intros s2 Hne Hall. unfold mergeCart. rewrite decide_False by done.
    rewrite mergeBody_eq. cbv zeta. rewrite bool_decide_false by done.
    by rewrite Hall, getCart_eq.
Qed.

Lemma mergeCart_stops_at_first_failure_witness :
  "sess" ≠ "" ∧
  mergeCart 7 "user" (Some "sess") mergeState
    = (MergeError, (addEach 7 "user" [lineB 1] (materialise 7 "sess" mergeState)).2) ∧
  redis (addEach 7 "user" [lineB 1] (materialise 7 "sess" mergeState)).2 !! "sess"
    = Some (cartOf 7 mergeState "sess").
Proof.
  assert (H : "sess" ≠ "") by discriminate.
  split; [exact H|].
  destruct (mergeCart_stops_at_first_failure 7 "user" "sess" mergeState H) as [Hfail _].
  destruct (Hfail [lineB 1] (lineA 2) [lineC 1] InsufficientStock
              (addEach 7 "user" [lineB 1] (materialise 7 "sess" mergeState)).2)
    as [Hm Hs].
  - vm_compute. reflexivity.
  - vm_compute. reflexivity.
  - vm_compute. reflexivity.
  - split; [exact Hm|]. apply Hs. discriminate.
Defined.

(** ** Cart totals (C7) *)

Section CartTotals.





End CartTotals.



(** Every mutator recomputes the totals of the cart it stores, whatever the
    store held before. *)
Lemma mutator_recomputes_totals now op s c :
  (∃ i p q, op = OpAdd i p q ∨ op = OpUpdate i p q ∨ op = OpRemove i p ∨ op = OpClear i) →
  (runCartOp now op s).1 = Some c →
  cart_totals_ok c.
Proof.
  intros (i & p & q & [->|[->|[->| ->]]]); simpl.
  - destruct (products s !! p) as [pr|] eqn:Hp.
    + destruct (p_isActive pr) eqn:Hact.
      * rewrite (addToCart_active _ _ _ _ _ _ Hp Hact). cbv zeta.
        repeat case_match; simplify_eq/=; try done;
          intros; simplify_eq/=; apply calculateCartTotals_ok.
      * by rewrite addToCart_unavailable by (right; eauto).
    + by rewrite addToCart_unavailable by (by left).
  - destruct (findIndex p (items (cartOf now s i))) as [[k x]|] eqn:E.
    + rewrite (updateCartItem_present _ _ _ _ _ _ _ E). cbv zeta.
      repeat case_match; simplify_eq/=; try done;
        intros; simplify_eq/=; apply calculateCartTotals_ok.
    + by rewrite (updateCartItem_absent _ _ _ _ _ E).
  - rewrite removeFromCart_eq. simpl. intros [= <-]. apply calculateCartTotals_ok.
  - intros [= <-]. apply emptyCart_ok.
Qed.


Example cart_totals_after_add :
  ∃ c, (runCartOp 7 (OpAdd "u" "B" 2) cartState).1 = Some c ∧
       items c = [lineA 2; lineB 2] ∧
       totalItems c = 4 ∧ totalAmount c = 1060%float.
Proof.
  eexists. split; [vm_compute; reflexivity|].
  split; [reflexivity|]. split; reflexivity.
Qed.

(** ** Line quantities stay positive *)

Section LinesPositive.

Lemma existingQuantity_nonneg productId l :
  lines_positive l → 0 ≤ existingQuantity productId l.
Proof.
  induction 1 as [|x l Hx _ IH]; simpl; [done|]. case_decide; lia.
Qed.

Lemma cartOf_positive now s identifier :
  carts_positive s → lines_positive (items (cartOf now s identifier)).
Proof.
  intros Hs. unfold cartOf. destruct (redis s !! identifier) as [c|] eqn:E; simpl.
  - by eapply Hs.
  - apply Forall_nil_2.
Qed.

Lemma materialise_positive now identifier s :
  carts_positive s → carts_positive (materialise now identifier s).
Proof.
  intros Hs. unfold materialise. destruct (redis s !! identifier) eqn:E; [done|].
  intros i c Hc. simpl in Hc. destruct (decide (identifier = i)) as [->|Hne].
  - rewrite lookup_insert_eq in Hc. simplify_eq. apply Forall_nil_2.
  - rewrite lookup_insert_ne in Hc by done. by eapply Hs.
Qed.

Lemma store_positive identifier c s :
  carts_positive s → lines_positive (items c) → carts_positive (store identifier c s).
Proof.
  intros Hs Hc i c' Hi. simpl in Hi. destruct (decide (identifier = i)) as [->|Hne].
  - rewrite lookup_insert_eq in Hi. by simplify_eq.
  - rewrite lookup_insert_ne in Hi by done. by eapply Hs.
Qed.

Lemma addToCart_positive now identifier productId quantity s :
  1 ≤ quantity → carts_positive s →
  carts_positive (addToCart now identifier productId quantity s).2.
Proof.
  intros Hq Hs. pose proof (cartOf_positive now s identifier Hs) as Hc.
  destruct (products s !! productId) as [p|] eqn:Hp;
    [|by rewrite addToCart_unavailable by (by left)].
  destruct (p_isActive p) eqn:Hact;
    [|by rewrite addToCart_unavailable by (right; eauto)].
  rewrite (addToCart_active _ _ _ _ _ _ Hp Hact). cbv zeta.
  destruct (p_stock p <? quantity); [done|].
  destruct (findIndex productId (items (cartOf now s identifier))) as [[i x]|] eqn:E.
  - destruct (p_stock p <? ci_quantity x + quantity); [done|].
    apply store_positive; [by apply materialise_positive|]. simpl.
    apply Forall_insert; [done|]. simpl.
    apply list_find_Some in E as (Hi & _).
    pose proof (Forall_lookup_1 _ _ _ _ Hc Hi) as Hx. simpl in Hx. lia.
  - apply store_positive; [by apply materialise_positive|]. simpl.
    apply Forall_app. split; [done|]. by apply Forall_singleton.
Qed.

Lemma addEach_positive now userId l : ∀ s,
  lines_positive l → carts_positive s → carts_positive (addEach now userId l s).2.
Proof.
  induction l as [|x l IH]; intros s Hl Hs; [done|].
  apply Forall_cons in Hl as [Hx Hl]. rewrite addEach_cons.
  pose proof (addToCart_positive now userId (ci_product x) (ci_quantity x) s Hx Hs) as Hs1.
  destruct (addToCart now userId (ci_product x) (ci_quantity x) s) as [[e|c] s1];
    [done|by apply IH].
Qed.

Lemma updateCartItem_positive now identifier productId quantity s :
  carts_positive s → carts_positive (updateCartItem now identifier productId quantity s).2.
Proof.
  intros Hs. pose proof (cartOf_positive now s identifier Hs) as Hc.
  destruct (findIndex productId (items (cartOf now s identifier))) as [[i x]|] eqn:E.
  - rewrite (updateCartItem_present _ _ _ _ _ _ _ E). cbv zeta.
    destruct (Z.leb_spec quantity 0) as [|Hq].
    + apply store_positive; [done|]. simpl. by apply Forall_delete.
    + assert (Hnew : lines_positive
                (<[i := set_quantity x quantity]> (items (cartOf now s identifier)))).
      { apply Forall_insert; [done|]. simpl. lia. }
      destruct (products s !! productId) as [p|]; [|by apply store_positive].
      destruct (p_stock p <? quantity); [done|by apply store_positive].
  - rewrite (updateCartItem_absent _ _ _ _ _ E). by apply materialise_positive.
Qed.

Lemma removeFromCart_positive now identifier productId s :
  carts_positive s → carts_positive (removeFromCart now identifier productId s).2.
Proof.
  intros Hs. pose proof (cartOf_positive now s identifier Hs) as Hc.
  rewrite removeFromCart_eq. cbv zeta.
  apply store_positive; [by apply materialise_positive|]. simpl.
  apply Forall_forall. intros y Hy%list_elem_of_filter.
  unfold lines_positive in Hc. rewrite Forall_forall in Hc. apply Hc, Hy.
Qed.

Lemma mergeCart_positive now userId sessionId s :
  carts_positive s → carts_positive (mergeCart now userId sessionId s).2.
Proof.
  intros Hs. unfold mergeCart. destruct sessionId as [sid|]; [|done].
  case_decide; [done|].
  assert (Hgoal : carts_positive (mergeBody now userId sid s).2).
  { rewrite mergeBody_eq. cbv zeta. case_bool_decide.
    - rewrite getCart_eq. by do 2 apply materialise_positive.
    - pose proof (addEach_positive now userId (items (cartOf now s sid))
                    (materialise now sid s) (cartOf_positive now s sid Hs)
                    (materialise_positive now sid s Hs)) as Hs2.
      destruct (addEach now userId (items (cartOf now s sid)) (materialise now sid s))
        as [[e|u] s2]; [done|].
      rewrite getCart_eq. simpl. apply materialise_positive.
      apply store_positive; [done|apply Forall_nil_2]. }
  by destruct (mergeBody now userId sid s) as [[e|c] s'].
Qed.

(** Every cart operation with a validated quantity keeps all line quantities
    at 1 or more, so the quantity a cart holds of a product is never
    negative. *)
Lemma runCartOp_positive now op s :
  valid_request op → carts_positive s → carts_positive (runCartOp now op s).2.
Proof.
  intros Hv Hs. destruct op as [i|i p q|i p q|i p|i|u sid]; simpl.
  - rewrite getCart_eq. by apply materialise_positive.
  - by apply addToCart_positive.
  - by apply updateCartItem_positive.
  - by apply removeFromCart_positive.
  - apply (store_positive i (emptyCart now) s Hs). apply Forall_nil_2.
  - pose proof (mergeCart_positive now u sid s Hs) as Hm.
    by destruct (mergeCart now u sid s) as [[| |] s'].
Qed.

End LinesPositive.

(** ** Order assembly *)

Section OrderAssembly.

Lemma updateStock_frame productId quantity s :
  orders (updateStock productId quantity s).2 = orders s ∧
  redis (updateStock productId quantity s).2 = redis s.
Proof.
  destruct (products s !! productId) as [p|] eqn:Hp.
  - rewrite (updateStock_found _ _ _ _ Hp). by destruct (_ <? 0).
  - by rewrite updateStock_missing.
Qed.

Lemma stockEach_cons (g : OrderItem → Z) x l s :
  forEach (λ item, updateStock (oi_product item) (g item) ≫= λ _, mret tt) (x :: l) s =
    match updateStock (oi_product x) (g x) s with
    | (inl e, s') => (inl e, s')
    | (inr _, s') =>
        forEach (λ item, updateStock (oi_product item) (g item) ≫= λ _, mret tt) l s'
    end.
Proof.
  simpl. unfold mbind, M_bind, mret, M_ret.
  by destruct (updateStock (oi_product x) (g x) s) as [[e|n] s'].
Qed.

Lemma stockEach_frame (g : OrderItem → Z) l : ∀ s,
  orders (forEach (λ item, updateStock (oi_product item) (g item) ≫= λ _, mret tt) l s).2
    = orders s ∧
  redis (forEach (λ item, updateStock (oi_product item) (g item) ≫= λ _, mret tt) l s).2
    = redis s.
Proof.
  induction l as [|x l IH]; intros s; [done|].
  rewrite stockEach_cons.
  pose proof (updateStock_frame (oi_product x) (g x) s) as [Ho Hr].
  destruct (updateStock (oi_product x) (g x) s) as [[e|n] s']; simpl in *; [done|].
  destruct (IH s') as [Ho' Hr']. by rewrite Ho', Hr', Ho, Hr.
Qed.

Lemma checkItems_state l : ∀ acc sub s, (checkItems l acc sub s).2 = s.
Proof.
  induction l as [|x l IH]; intros acc sub s; [done|].
  simpl. unfold mbind, M_bind, findById, throw.
  destruct (products s !! ci_product x) as [p|]; [|done].
  destruct (p_isActive p); [|done]. simpl.
  destruct (p_stock p <? ci_quantity x); [done|]. apply IH.
Qed.

(** What the check loop returns when every line passes: the order lines, one
    per cart line, priced with the catalog's current final price, and the
    subtotal accumulated over them. *)
Lemma checkItems_success l : ∀ acc sub s orderItems subtotal,
  (checkItems l acc sub s).1 = inr (orderItems, subtotal) →
  Forall (line_ok (products s)) l ∧
  orderItems = acc ++ (orderItemOf (products s) <$> l) ∧
  subtotal = subtotal_from (products s) sub l.
Proof.
  induction l as [|x l IH]; intros acc sub s orderItems subtotal.
  - simpl. intros [= <- <-]. split; [done|]. split; [by rewrite app_nil_r|done].
  - simpl. unfold mbind, M_bind, findById, throw.
    destruct (products s !! ci_product x) as [p|] eqn:Hp; [|done].
    destruct (p_isActive p) eqn:Hact; [|done]. simpl.
    destruct (Z.ltb_spec (p_stock p) (ci_quantity x)) as [|Hge]; [done|].
    intros Hrest. apply IH in Hrest as (Hall & -> & ->).
    split; [apply Forall_cons; split; [by exists p|done]|].
    split; [|done].
    rewrite <- app_assoc. simpl. f_equal. f_equal. unfold orderItemOf. by rewrite Hp.
Qed.

Lemma checkItems_passes l : ∀ acc sub s,
  Forall (line_ok (products s)) l →
  checkItems l acc sub s
  = (inr (acc ++ (orderItemOf (products s) <$> l), subtotal_from (products s) sub l), s).
Proof.
  induction l as [|x l IH]; intros acc sub s Hall.
  - simpl. by rewrite app_nil_r.
  - apply Forall_cons in Hall as [(p & Hp & Hact & Hq) Hall].
    simpl. unfold mbind, M_bind, findById, throw. rewrite Hp, Hact. simpl.
    rewrite (proj2 (Z.ltb_ge _ _)) by done.
    rewrite (IH _ _ s Hall). rewrite <- app_assoc. simpl.
    f_equal. f_equal. f_equal. f_equal. unfold orderItemOf. by rewrite Hp.
Qed.

(** The document [createOrder] builds has no order number: its save is
    rejected and writes nothing. *)
Lemma insertOrder_newOrder userId orderData orderItems subtotal s :
  insertOrder (newOrder userId orderData orderItems subtotal) s
  = (inl OrderValidationFailed, s).
Proof. done. Qed.

(** [createOrder], phase by phase: the empty cart, the check of the lines, and
    the save, which rejects the document; the stock updates and the clearing
    of the cart that follow the save are never reached. *)
Lemma createOrder_eq now userId orderData s :
  createOrder now userId orderData s =
    if bool_decide (items (cartOf now s userId) = [])
    then (inl CartIsEmpty, materialise now userId s)
    else
      match checkItems (items (cartOf now s userId)) [] 0%float s with
      | (inl e, _) => (inl e, s)
      | (inr _, _) => (inl OrderValidationFailed, s)
      end.
Proof.
  unfold createOrder. unfold mbind at 1. unfold M_bind at 1. rewrite getCart_eq.
  case_bool_decide as Hempty; [done|].
  assert (Hs : materialise now userId s = s).
  { unfold materialise, cartOf in *. by destruct (redis s !! userId). }
  rewrite Hs. unfold mbind at 1. unfold M_bind at 1.
  pose proof (checkItems_state (items (cartOf now s userId)) [] 0%float s) as Hst.
  destruct (checkItems (items (cartOf now s userId)) [] 0%float s) as [[e|[oi st]] s1];
    simpl in Hst; subst s1; [done|].
  cbv zeta. unfold mbind at 1. unfold M_bind at 1.
  change (mkOrder None userId oi _ _ _ _ _ _ _ _ _ _ _ _ _ _ _)
    with (newOrder userId orderData oi st).
  by rewrite (insertOrder_newOrder userId orderData oi st s).
Qed.

(** Every call of [createOrder] fails, and leaves the state [getCart] leaves:
    nothing is written but the empty cart of an actor who had none. *)
Lemma createOrder_outcome now userId orderData s :
  ∃ e, createOrder now userId orderData s = (inl e, materialise now userId s).
Proof.
  rewrite createOrder_eq. case_bool_decide as Hempty; [by eexists|].
  assert (Hs : materialise now userId s = s).
  { unfold materialise, cartOf in *. by destruct (redis s !! userId). }
  rewrite Hs.
  destruct (checkItems (items (cartOf now s userId)) [] 0%float s) as [[e|r] s1];
    by eexists.
Qed.

(** A cart that is not empty and whose lines all pass the check is rejected
    at the save, with the cart, the catalog and the orders as they were. *)
Lemma createOrder_valid_cart now userId orderData s :
  items (cartOf now s userId) ≠ [] →
  Forall (line_ok (products s)) (items (cartOf now s userId)) →
  createOrder now userId orderData s = (inl OrderValidationFailed, s).
Proof.
  intros Hne Hall. rewrite createOrder_eq, bool_decide_false by done.
  by rewrite (checkItems_passes _ [] 0%float s Hall).
Qed.

End OrderAssembly.

(** ** Order atomicity (C1) *)

(** C1. Order assembly is all-or-nothing: every failure of [createOrder] (the
    empty cart, a product missing or inactive, insufficient stock at any line,
    the rejection of the order document by the save) leaves no order
    persisted and the catalog, hence the available stock of every product, as
    before the call; the state is the one [getCart] leaves.  Every failure
    precedes the first stock update, so no decrement is there to be rolled
    back. *)
Theorem createOrder_failure_atomic now userId orderData s e s' :
  createOrder now userId orderData s = (inl e, s') →
  s' = materialise now userId s ∧
  orders s' = orders s ∧
  products s' = products s ∧
  ∀ productId, available s' productId = available s productId.
Proof.
  intros Hfail.
  destruct (createOrder_outcome now userId orderData s) as [e' He'].
  rewrite He' in Hfail. injection Hfail as _ <-.
  split; [done|].
  rewrite materialise_orders, materialise_products. split; [done|]. split; [done|].
  intros productId. unfold available. by rewrite materialise_products.
Qed.

Lemma createOrder_failure_atomic_witness :
  createOrder 7 "u" sampleOrderData shortState
    = (inl (InsufficientStockNamed "Desk"), shortState) ∧
  orders shortState = [] ∧
  available shortState "A" = Some 5 ∧ available shortState "B" = Some 0.
Proof.
  assert (Hfail : createOrder 7 "u" sampleOrderData shortState
                  = (inl (InsufficientStockNamed "Desk"), shortState))
    by (vm_compute; reflexivity).
  destruct (createOrder_failure_atomic 7 "u" sampleOrderData shortState _ _ Hfail)
    as (_ & Ho & _ & Ha).
  split; [exact Hfail|]. split; [exact Ho|].
  split; [exact (Ha "A")|exact (Ha "B")].
Defined.

(** Two lines for product A of quantity 2 each, with a stock of 3: both lines
    pass the check, the save rejects the document, and the stock is 3 as
    before, with no order persisted. *)
Example createOrder_duplicate_lines :
  createOrder 7 "u" sampleOrderData dupState = (inl OrderValidationFailed, dupState) ∧
  orders dupState = [] ∧ available dupState "A" = Some 3.
Proof. repeat split; vm_compute; reflexivity. Qed.

(** ** Order pricing (C9) *)

(** C9 on a cart with three units of a product whose line price is 80 and
    whose current final price in the catalog is 100.  The check loop prices
    the line from the catalog (subtotal 300, not 240), and the document built
    from it has the shipping cost 29.99, the tax 60 and the total 389.99; but
    no order is created: the document has no order number, the save rejects
    it, and [createOrder] fails with nothing persisted, the stock not
    updated and the cart not cleared. *)
Theorem createOrder_rejected_at_save :
  let cartItems := items (cartOf 7 repricedState "u") in
  let orderItems := [mkOrderItem "A" "Lamp" 3 100 300] in
  sum_amount cartItems = 240%float ∧
  checkItems cartItems [] 0 repricedState = (inr (orderItems, 300%float), repricedState) ∧
  newOrder "u" sampleOrderData orderItems 300
    = mkOrder None "u" orderItems "1 Main St" "1 Main St" "credit_card" "pending"
              pending [] 300 29.99 "standard" 60 389.99 None None None None ∧
  createOrder 7 "u" sampleOrderData repricedState
    = (inl OrderValidationFailed, repricedState) ∧
  orders repricedState = [] ∧
  available repricedState "A" = Some 5 ∧
  items (cartOf 7 repricedState "u") = [lineA 3].
Proof. cbv zeta. repeat split; vm_compute; reflexivity. Qed.

(** ** Order lifecycle *)

Section OrderLifecycle.

Lemma updateStatus_status now newStatus note o :
  o_status (updateStatus now newStatus note o) = newStatus.
Proof. unfold updateStatus. by repeat case_decide. Qed.

Lemma updateStatus_history now newStatus note o :
  o_statusHistory (updateStatus now newStatus note o) = o_statusHistory o.
Proof. unfold updateStatus. by repeat case_decide. Qed.

Lemma updateStatus_delivered now note o :
  o_deliveredAt (updateStatus now delivered note o) = Some now.
Proof. done. Qed.

Lemma updateStatus_spec_length now newStatus note o :
  length (updateStatus_spec now newStatus note o) = S (length (o_statusHistory o)).
Proof. unfold updateStatus_spec. rewrite length_app. simpl. lia. Qed.

Lemma updateOrderStatus_found now orderId newStatus note s o :
  orders s !! orderId = Some o →
  updateOrderStatus now orderId newStatus note s =
    (inr (mkOrderDoc (updateStatus now newStatus note o) None),
     mkState (products s) (redis s)
             (<[orderId := updateStatus now newStatus note o]> (orders s))).
Proof. intros Ho. unfold updateOrderStatus. munfold. by rewrite Ho. Qed.

Lemma restoreEach_cons x l s :
  restoreEach (x :: l) s =
    match updateStock (oi_product x) (oi_quantity x) s with
    | (inl e, s') => (inl e, s')
    | (inr _, s') => restoreEach l s'
    end.
Proof. apply (stockEach_cons oi_quantity). Qed.

(** A completed restore loop has added to every product the quantity the
    order holds of it. *)
Lemma restoreEach_available l : ∀ s s',
  restoreEach l s = (inr tt, s') →
  ∀ productId,
    available s' productId = (λ n, n + orderedQuantity productId l) <$> available s productId.
Proof.
  induction l as [|x l IH]; intros s s' Hrun productId.
  - injection Hrun as <-. simpl. unfold available.
    destruct (products s !! productId); simpl; [f_equal; lia|done].
  - rewrite restoreEach_cons in Hrun.
    destruct (products s !! oi_product x) as [p|] eqn:Hp;
      [|by rewrite updateStock_missing in Hrun].
    rewrite (updateStock_found _ _ _ _ Hp) in Hrun.
    destruct (p_stock p + oi_quantity x <? 0); [done|].
    rewrite (IH _ _ Hrun productId). unfold available. simpl.
    destruct (decide (oi_product x = productId)) as [<-|Hne].
    + rewrite lookup_insert_eq, Hp. simpl. f_equal. lia.
    + rewrite lookup_insert_ne by done.
      destruct (products s !! productId); simpl; [f_equal; lia|done].
Qed.

Lemma restoreEach_frame l s :
  orders (restoreEach l s).2 = orders s ∧ redis (restoreEach l s).2 = redis s.
Proof. apply (stockEach_frame oi_quantity). Qed.

Lemma cancelOrder_found now orderId userId reason s o :
  orders s !! orderId = Some o → o_user o = userId →
  cancelOrder now orderId userId reason s =
    if bool_decide (o_status o ∈ [pending; confirmed]) then
      match restoreEach (o_items o) s with
      | (inl e, s1) => (inl e, s1)
      | (inr _, s1) =>
          (inr (mkOrderDoc (set_cancelledAt (set_status o cancelled) now) (Some reason)),
           mkState (products s1) (redis s1)
                   (<[orderId := set_cancelledAt (set_status o cancelled) now]> (orders s1)))
      end
    else (inl OrderNotCancellable, s).
Proof.
  intros Ho Hu. unfold cancelOrder. munfold. rewrite Ho, decide_True by done. simpl.
  case_bool_decide; simpl; [|done].
  by destruct (restoreEach (o_items o) s) as [[e|[]] s1].
Qed.

(** The guard of [cancelOrder]. *)
Lemma cancelOrder_guard now orderId userId reason s o :
  orders s !! orderId = Some o → o_user o = userId →
  o_status o ≠ pending → o_status o ≠ confirmed →
  cancelOrder now orderId userId reason s = (inl OrderNotCancellable, s).
Proof.
  intros Ho Hu Hp Hc. rewrite (cancelOrder_found _ _ _ _ _ _ Ho Hu).
  rewrite bool_decide_false; [done|].
  intros Hin. apply elem_of_cons in Hin as [?|Hin]; [done|].
  apply elem_of_cons in Hin as [?|Hin]; [done|]. by apply elem_of_nil in Hin.
Qed.

(** What a successful [cancelOrder] does: the stock of every product grows by
    the quantity the order holds of it; the stored order is cancelled, with
    [cancelledAt] set; the reason is on the returned document only, as the
    property [cancelReason], and the stored [cancelledReason] is untouched;
    a second cancel is refused. *)
Lemma cancelOrder_success now orderId userId reason s o doc s' :
  orders s !! orderId = Some o →
  cancelOrder now orderId userId reason s = (inr doc, s') →
  (∀ productId,
     available s' productId
     = (λ n, n + orderedQuantity productId (o_items o)) <$> available s productId) ∧
  orders s' !! orderId = Some (paths doc) ∧
  o_status (paths doc) = cancelled ∧
  o_cancelledAt (paths doc) = Some now ∧
  cancelReason doc = Some reason ∧
  o_cancelledReason (paths doc) = o_cancelledReason o ∧
  ∀ now' reason',
    cancelOrder now' orderId userId reason' s' = (inl OrderNotCancellable, s').
Proof.
  intros Ho Hrun.
  assert (Hu : o_user o = userId).
  { unfold cancelOrder in Hrun. munfold. rewrite Ho in Hrun.
    by case_decide. }
  rewrite (cancelOrder_found _ _ _ _ _ _ Ho Hu) in Hrun.
  case_bool_decide; [|done].
  pose proof (restoreEach_available (o_items o) s) as Hav.
  pose proof (restoreEach_frame (o_items o) s) as [Hord _].
  destruct (restoreEach (o_items o) s) as [[e|[]] s1]; [done|].
  simpl in Hord. simplify_eq. simpl.
  assert (Hlook : <[orderId := set_cancelledAt (set_status o cancelled) now]> (orders s1)
                    !! orderId = Some (set_cancelledAt (set_status o cancelled) now)).
  { apply list_lookup_insert_eq. rewrite Hord. by eapply lookup_lt_Some. }
  split; [intros productId; exact (Hav s1 eq_refl productId)|].
  split; [exact Hlook|]. do 4 (split; [done|]).
  intros now' reason'.
  by apply (cancelOrder_guard _ _ _ _ _ (set_cancelledAt (set_status o cancelled) now)).
Qed.

End OrderLifecycle.

(** ** Cancellation (C3) *)

(** C3 on the order with lines A x 2 and B x 1, cancelled with a reason: the
    stock of A and B grows by 2 and by 1, the stored order is cancelled with
    [cancelledAt] set, and a second cancel is refused; but the reason is not
    recorded: [cancelOrder] assigns [order.cancelReason], which is not a path
    of the order schema (it declares [cancelledReason]), so the stored order
    holds no reason. *)
Theorem cancelOrder_reason_not_stored :
  ∃ doc s',
    cancelOrder 9 0 "u" "changed my mind" orderState = (inr doc, s') ∧
    available orderState "A" = Some 3 ∧ available s' "A" = Some 5 ∧
    available orderState "B" = Some 0 ∧ available s' "B" = Some 1 ∧
    o_status <$> orders s' !! 0%nat = Some cancelled ∧
    o_cancelledAt <$> orders s' !! 0%nat = Some (Some 9) ∧
    cancelOrder 10 0 "u" "again" s' = (inl OrderNotCancellable, s') ∧
    cancelReason doc = Some "changed my mind" ∧
    o_cancelledReason <$> orders s' !! 0%nat = Some None.
Proof. do 2 eexists. repeat split; vm_compute; reflexivity. Qed.

(** ** Status updates (C4) *)

(** C4 on a pending order with an empty history, updated to [shipped] with a
    note: the status is set, but no entry is appended to [statusHistory],
    neither on the document nor in the store; an append would have given one
    entry.  [deliveredAt] is set by an update to [delivered]. *)
Theorem updateStatus_history_not_appended :
  ∃ doc s',
    updateOrderStatus 9 0 shipped "left the warehouse" orderState = (inr doc, s') ∧
    o_status (paths doc) = shipped ∧
    o_statusHistory (paths doc) = [] ∧
    o_statusHistory <$> orders s' !! 0%nat = Some [] ∧
    updateStatus_spec 9 shipped "left the warehouse" sampleOrder
      = [mkStatusEntry shipped "left the warehouse" 9] ∧
    o_deliveredAt (updateStatus 9 delivered "" sampleOrder) = Some 9.
Proof. do 2 eexists. repeat split; vm_compute; reflexivity. Qed.

(** ** A checkout scenario *)

(** With a stock of 5 for A: adding 3 units gives a cart of 3 items; the
    order request is then rejected at the save, and leaves no order, the
    stock of 5 and the cart with its line. *)
Example checkout_scenario :
  let s0 := mkState {[ "A" := productA 5 ]} ∅ [] in
  ∃ cart s1,
    addToCart 1 "u" "A" 3 s0 = (inr cart, s1) ∧ totalItems cart = 3 ∧
    createOrder 2 "u" sampleOrderData s1 = (inl OrderValidationFailed, s1) ∧
    orders s1 = [] ∧ available s1 "A" = Some 5 ∧
    items (cartOf 2 s1 "u") = [lineA 3].
Proof. do 2 eexists. repeat split; vm_compute; reflexivity. Qed.

(** * Further properties *)

(** ** Cart store: reads, frame and isolation *)

(** X1. [getCart] never fails, and reading is idempotent: a second [getCart]
    for the same identifier, at any later time, answers with the same cart and
    writes nothing.  The first read writes at most the empty cart of an
    identifier that had none, and touches neither the catalog, nor the
    orders, nor any other cart. *)
Theorem getCart_idempotent now now' identifier s :
  ∃ c s1,
    getCart now identifier s = (inr c, s1) ∧
    getCart now' identifier s1 = (inr c, s1) ∧
    (is_Some (redis s !! identifier) → s1 = s) ∧
    (redis s !! identifier = None → c = emptyCart now) ∧
    products s1 = products s ∧ orders s1 = orders s ∧
    ∀ j, j ≠ identifier → redis s1 !! j = redis s !! j.
Proof.
  exists (cartOf now s identifier), (materialise now identifier s).
  split; [apply getCart_eq|]. split.
  - rewrite getCart_eq. f_equal.
    + f_equal. unfold cartOf at 1. by rewrite materialise_lookup.
    + unfold materialise at 1. by rewrite materialise_lookup.
  - split; [intros [c Hc]; unfold materialise; by rewrite Hc|].
    split; [intros Hn; unfold cartOf; by rewrite Hn|].
    split; [apply materialise_products|]. split; [apply materialise_orders|].
    intros j Hj. by apply materialise_other.
Qed.

Section Frame.

Lemma frame_ret {A} ids (a : A) : frame_op ids (mret a).
Proof. by intros s. Qed.

Lemma frame_throw {A} ids e : frame_op ids (@throw A e).
Proof. by intros s. Qed.

Lemma frame_bind {A B} ids (m : M A) (f : A → M B) :
  frame_op ids m → (∀ a, frame_op ids (f a)) → frame_op ids (m ≫= f).
Proof.
  intros Hm Hf s. unfold mbind, M_bind. specialize (Hm s).
  destruct (m s) as [[e|a] s1]; simpl in *; [done|].
  destruct Hm as (Hp & Ho & Hr). destruct (Hf a s1) as (Hp' & Ho' & Hr').
  split; [congruence|]. split; [congruence|].
  intros j Hj. rewrite Hr', Hr; done.
Qed.

Lemma frame_findById ids productId : frame_op ids (findById productId).
Proof. by intros s. Qed.

Lemma frame_save ids identifier c :
  identifier ∈ ids → frame_op ids (saveCartToRedis identifier c).
Proof.
  intros Hin s. split; [done|]. split; [done|]. intros j Hj. simpl.
  apply lookup_insert_ne. by intros ->.
Qed.

Lemma frame_getCart ids now identifier :
  identifier ∈ ids → frame_op ids (getCart now identifier).
Proof.
  intros Hin s. rewrite getCart_eq. simpl.
  split; [apply materialise_products|]. split; [apply materialise_orders|].
  intros j Hj. apply materialise_other. by intros ->.
Qed.

Lemma frame_clearCart ids now identifier :
  identifier ∈ ids → frame_op ids (clearCart now identifier).
Proof.
  intros Hin. apply frame_bind; [by apply frame_save|intros; apply frame_ret].
Qed.

Lemma frame_addToCart ids now identifier productId quantity :
  identifier ∈ ids → frame_op ids (addToCart now identifier productId quantity).
Proof.
  intros Hin. apply frame_bind; [apply frame_findById|]. intros [p|]; [|apply frame_throw].
  destruct (negb (p_isActive p)); [apply frame_throw|].
  destruct (p_stock p <? quantity); [apply frame_throw|].
  apply frame_bind; [by apply frame_getCart|]. intros c.
  apply frame_bind.
  - destruct (findIndex productId (items c)) as [[i x]|]; [|apply frame_ret].
    cbv zeta.
    destruct (p_stock p <? ci_quantity x + quantity); [apply frame_throw|apply frame_ret].
  - intros l. apply frame_bind; [by apply frame_save|intros; apply frame_ret].
Qed.

Lemma frame_updateCartItem ids now identifier productId quantity :
  identifier ∈ ids → frame_op ids (updateCartItem now identifier productId quantity).
Proof.
  intros Hin. apply frame_bind; [by apply frame_getCart|]. intros c.
  destruct (findIndex productId (items c)) as [[i x]|]; [|apply frame_throw].
  apply frame_bind.
  - destruct (quantity <=? 0); [apply frame_ret|].
    apply frame_bind; [apply frame_findById|]. intros [p|]; [|apply frame_ret].
    destruct (p_stock p <? quantity); [apply frame_throw|apply frame_ret].
  - intros l. apply frame_bind; [by apply frame_save|intros; apply frame_ret].
Qed.

Lemma frame_removeFromCart ids now identifier productId :
  identifier ∈ ids → frame_op ids (removeFromCart now identifier productId).
Proof.
  intros Hin. apply frame_bind; [by apply frame_getCart|]. intros c.
  apply frame_bind; [by apply frame_save|intros; apply frame_ret].
Qed.

Lemma frame_addEach ids now userId l :
  userId ∈ ids → frame_op ids (addEach now userId l).
Proof.
  intros Hin. induction l as [|x l IH]; [apply frame_ret|].
  apply frame_bind; [|intros _; exact IH].
  apply frame_bind; [by apply frame_addToCart|intros; apply frame_ret].
Qed.

Lemma frame_mergeBody now userId sessionId :
  frame_op [userId; sessionId] (mergeBody now userId sessionId).
Proof.
  apply frame_bind; [apply frame_getCart; set_solver|]. intros c.
  apply frame_bind; [|intros; apply frame_getCart; set_solver].
  case_bool_decide; [apply frame_ret|].
  apply frame_bind; [apply frame_addEach; set_solver|]. intros _.
  apply frame_bind; [apply frame_clearCart; set_solver|intros; apply frame_ret].
Qed.

End Frame.

(** X2. Cart operations are confined to the carts they name: whatever the
    request and whether it succeeds or fails, get, add, update, remove and
    clear leave every cart but the actor's as it was, a merge every cart but
    the user's and the session's, and none of them changes the catalog (so no
    stock quantity) or the orders. *)
Theorem cart_operations_frame now op s :
  products (runCartOp now op s).2 = products s ∧
  orders (runCartOp now op s).2 = orders s ∧
  ∀ j, j ∉ touched op → redis (runCartOp now op s).2 !! j = redis s !! j.
Proof.
  destruct op as [i|i p q|i p q|i p|i|u sid]; simpl.
  - apply (frame_getCart [i]). set_solver.
  - apply (frame_addToCart [i]). set_solver.
  - apply (frame_updateCartItem [i]). set_solver.
  - apply (frame_removeFromCart [i]). set_solver.
  - apply (frame_clearCart [i] now i). set_solver.
  - unfold mergeCart. destruct sid as [sid|]; [|done].
    case_decide; [done|].
    pose proof (frame_mergeBody now u sid s) as Hf.
    by destruct (mergeBody now u sid s) as [[e|c] s'].
Qed.

(** ** Cart store: well-formed lines *)

Section LinesDistinct.

Lemma fmap_product_insert (l : list CartItem) (i : nat) x q :
  l !! i = Some x →
  ci_product <$> <[i := set_quantity x q]> l = ci_product <$> l.
Proof.
  intros Hi. rewrite list_fmap_insert. apply list_insert_id.
  by rewrite list_lookup_fmap, Hi.
Qed.

Lemma cartOf_distinct now s identifier :
  carts_distinct s → lines_distinct (items (cartOf now s identifier)).
Proof.
  intros Hs. unfold cartOf. destruct (redis s !! identifier) as [c|] eqn:E; simpl.
  - by eapply Hs.
  - apply NoDup_nil_2.
Qed.

Lemma materialise_distinct now identifier s :
  carts_distinct s → carts_distinct (materialise now identifier s).
Proof.
  intros Hs. unfold materialise. destruct (redis s !! identifier) eqn:E; [done|].
  intros i c Hc. simpl in Hc. destruct (decide (identifier = i)) as [->|Hne].
  - rewrite lookup_insert_eq in Hc. simplify_eq. apply NoDup_nil_2.
  - rewrite lookup_insert_ne in Hc by done. by eapply Hs.
Qed.

Lemma store_distinct identifier c s :
  carts_distinct s → lines_distinct (items c) → carts_distinct (store identifier c s).
Proof.
  intros Hs Hc i c' Hi. simpl in Hi. destruct (decide (identifier = i)) as [->|Hne].
  - rewrite lookup_insert_eq in Hi. by simplify_eq.
  - rewrite lookup_insert_ne in Hi by done. by eapply Hs.
Qed.

Lemma addToCart_distinct now identifier productId quantity s :
  carts_distinct s → carts_distinct (addToCart now identifier productId quantity s).2.
Proof.
  intros Hs. pose proof (cartOf_distinct now s identifier Hs) as Hc.
  destruct (products s !! productId) as [p|] eqn:Hp;
    [|by rewrite addToCart_unavailable by (by left)].
  destruct (p_isActive p) eqn:Hact;
    [|by rewrite addToCart_unavailable by (right; eauto)].
  rewrite (addToCart_active _ _ _ _ _ _ Hp Hact). cbv zeta.
  destruct (p_stock p <? quantity); [done|].
  destruct (findIndex productId (items (cartOf now s identifier))) as [[i x]|] eqn:E.
  - destruct (p_stock p <? ci_quantity x + quantity); [done|].
    apply store_distinct; [by apply materialise_distinct|]. simpl.
    apply list_find_Some in E as (Hi & _).
    unfold lines_distinct. by rewrite fmap_product_insert.
  - apply store_distinct; [by apply materialise_distinct|]. simpl.
    unfold lines_distinct. rewrite fmap_app. simpl.
    apply NoDup_app. split; [done|]. split; [|apply NoDup_singleton].
    intros y Hy Hin. apply list_elem_of_singleton in Hin as ->.
    apply list_elem_of_fmap in Hy as (item & Heq & Hitem).
    apply list_find_None in E. rewrite Forall_forall in E. by apply (E item).
Qed.

Lemma addEach_distinct now userId l : ∀ s,
  carts_distinct s → carts_distinct (addEach now userId l s).2.
Proof.
  induction l as [|x l IH]; intros s Hs; [done|]. rewrite addEach_cons.
  pose proof (addToCart_distinct now userId (ci_product x) (ci_quantity x) s Hs) as Hs1.
  destruct (addToCart now userId (ci_product x) (ci_quantity x) s) as [[e|c] s1];
    [done|by apply IH].
Qed.

Lemma updateCartItem_distinct now identifier productId quantity s :
  carts_distinct s → carts_distinct (updateCartItem now identifier productId quantity s).2.
Proof.
  intros Hs. pose proof (cartOf_distinct now s identifier Hs) as Hc.
  destruct (findIndex productId (items (cartOf now s identifier))) as [[i x]|] eqn:E.
  - rewrite (updateCartItem_present _ _ _ _ _ _ _ E). cbv zeta.
    pose proof E as E'. apply list_find_Some in E' as (Hi & _).
    assert (Hnew : lines_distinct
              (<[i := set_quantity x quantity]> (items (cartOf now s identifier))))
      by (unfold lines_distinct; by rewrite fmap_product_insert).
    destruct (quantity <=? 0).
    + apply store_distinct; [done|]. simpl. unfold lines_distinct.
      rewrite list_fmap_delete. eapply sublist_NoDup; [exact Hc|apply sublist_delete].
    + destruct (products s !! productId) as [p|]; [|by apply store_distinct].
      destruct (p_stock p <? quantity); [done|by apply store_distinct].
  - rewrite (updateCartItem_absent _ _ _ _ _ E). by apply materialise_distinct.
Qed.

Lemma removeFromCart_distinct now identifier productId s :
  carts_distinct s → carts_distinct (removeFromCart now identifier productId s).2.
Proof.
  intros Hs. pose proof (cartOf_distinct now s identifier Hs) as Hc.
  rewrite removeFromCart_eq. cbv zeta.
  apply store_distinct; [by apply materialise_distinct|]. simpl.
  eapply sublist_NoDup; [exact Hc|]. apply fmap_sublist, sublist_filter.
Qed.

Lemma mergeCart_distinct now userId sessionId s :
  carts_distinct s → carts_distinct (mergeCart now userId sessionId s).2.
Proof.
  intros Hs. unfold mergeCart. destruct sessionId as [sid|]; [|done].
  case_decide; [done|].
  assert (Hgoal : carts_distinct (mergeBody now userId sid s).2).
  { rewrite mergeBody_eq. cbv zeta. case_bool_decide.
    - rewrite getCart_eq. by do 2 apply materialise_distinct.
    - pose proof (addEach_distinct now userId (items (cartOf now s sid))
                    (materialise now sid s) (materialise_distinct now sid s Hs)) as Hs2.
      destruct (addEach now userId (items (cartOf now s sid)) (materialise now sid s))
        as [[e|u] s2]; [done|].
      rewrite getCart_eq. simpl. apply materialise_distinct.
      apply store_distinct; [done|apply NoDup_nil_2]. }
  by destruct (mergeBody now userId sid s) as [[e|c] s'].
Qed.

Lemma runCartOp_distinct now op s :
  carts_distinct s → carts_distinct (runCartOp now op s).2.
Proof.
  intros Hs. destruct op as [i|i p q|i p q|i p|i|u sid]; simpl.
  - rewrite getCart_eq. by apply materialise_distinct.
  - by apply addToCart_distinct.
  - by apply updateCartItem_distinct.
  - by apply removeFromCart_distinct.
  - apply (store_distinct i (emptyCart now) s Hs). apply NoDup_nil_2.
  - pose proof (mergeCart_distinct now u sid s Hs) as Hm.
    by destruct (mergeCart now u sid s) as [[| |] s'].
Qed.

End LinesDistinct.

(** X3. One line per product id: when no stored cart has two lines with the
    same product id, no sequence of cart requests (get, add, update, remove,
    clear, merge), succeeding or failing, creates one; an added product that
    already has a line is merged into that line. *)
Theorem cart_lines_stay_distinct requests s :
  carts_distinct s → carts_distinct (runCartOps requests s).
Proof.
  revert s. induction requests as [|[now op] requests IH]; intros s Hs; [done|].
  simpl. apply IH. by apply runCartOp_distinct.
Qed.

(** X4. No empty line: when every line of every stored cart has a quantity of
    at least 1, the same holds after every sequence of cart requests in which
    every added quantity is at least 1 (the bound of the request validation);
    an update to 0 or less removes the line instead of keeping it, and the
    quantity a cart holds of a product is therefore never negative. *)
Theorem cart_lines_stay_positive requests s :
  Forall (λ r, valid_request r.2) requests →
  carts_positive s →
  carts_positive (runCartOps requests s) ∧
  ∀ now identifier productId,
    0 ≤ existingQuantity productId (items (cartOf now (runCartOps requests s) identifier)).
Proof.
  intros Hv Hs.
  assert (Hpos : carts_positive (runCartOps requests s)).
  { revert s Hs. induction Hv as [|[now op] requests Hop _ IH]; intros s Hs; [done|].
    simpl. apply IH. by apply runCartOp_positive. }
  split; [done|]. intros now identifier productId.
  by apply existingQuantity_nonneg, cartOf_positive.
Qed.

Lemma cart_lines_stay_distinct_witness :
  carts_distinct cartState ∧
  carts_distinct (runCartOps sampleRequests cartState) ∧
  ci_product <$> items (cartOf 9 (runCartOps sampleRequests cartState) "v") = ["A"].
Proof.
  assert (H : carts_distinct cartState).
  { intros i c Hc. simpl in Hc. apply lookup_singleton_Some in Hc as [_ <-].
    apply NoDup_singleton. }
  split; [exact H|].
  split; [exact (cart_lines_stay_distinct sampleRequests cartState H)|].
  vm_compute. reflexivity.
Defined.

Lemma cart_lines_stay_positive_witness :
  Forall (λ r, valid_request r.2) sampleRequests ∧
  carts_positive cartState ∧
  carts_positive (runCartOps sampleRequests cartState) ∧
  ∀ now identifier productId,
    0 ≤ existingQuantity productId
          (items (cartOf now (runCartOps sampleRequests cartState) identifier)).
Proof.
  assert (Hv : Forall (λ r, valid_request r.2) sampleRequests).
  { repeat (apply Forall_cons; split; [simpl; try lia; exact I|]). apply Forall_nil_2. }
  assert (H : carts_positive cartState).
  { intros i c Hc. simpl in Hc. apply lookup_singleton_Some in Hc as [_ <-].
    apply Forall_singleton. simpl. lia. }
  split; [exact Hv|]. split; [exact H|].
  exact (cart_lines_stay_positive sampleRequests cartState Hv H).
Defined.

(** ** Cart store: how the mutators compose *)

Section CartLines.

Lemma items_cartOf now now' s identifier :
  items (cartOf now s identifier) = items (cartOf now' s identifier).
Proof. unfold cartOf. by destruct (redis s !! identifier). Qed.

Lemma cartOf_store now identifier c s : cartOf now (store identifier c s) identifier = c.
Proof. unfold cartOf. simpl. by rewrite lookup_insert_eq. Qed.

Lemma cartOf_store_ne now identifier other c s :
  other ≠ identifier → cartOf now (store identifier c s) other = cartOf now s other.
Proof. intros Hne. unfold cartOf. simpl. by rewrite lookup_insert_ne. Qed.

Lemma cartOf_materialise_ne now now' identifier other s :
  other ≠ identifier →
  cartOf now (materialise now' identifier s) other = cartOf now s other.
Proof. intros Hne. unfold cartOf. by rewrite materialise_other. Qed.

Lemma materialise_store now identifier c s :
  materialise now identifier (store identifier c s) = store identifier c s.
Proof. unfold materialise. simpl. by rewrite lookup_insert_eq. Qed.

(** A successful [addToCart], read backwards: the product is in the catalog,
    active and in sufficient stock, and the stored cart has the merged
    lines. *)
Lemma addToCart_success now identifier productId quantity s c' s' :
  addToCart now identifier productId quantity s = (inr c', s') →
  ∃ p, products s !! productId = Some p ∧ p_isActive p = true ∧
       quantity ≤ p_stock p ∧
       existingQuantity productId (items (cartOf now s identifier)) + quantity ≤ p_stock p ∧
       items c' = addLine_spec productId quantity p (items (cartOf now s identifier)) ∧
       s' = store identifier c' (materialise now identifier s).
Proof.
  destruct (products s !! productId) as [p|] eqn:Hp;
    [|by rewrite addToCart_unavailable by (by left)].
  destruct (p_isActive p) eqn:Hact;
    [|by rewrite addToCart_unavailable by (right; eauto)].
  rewrite (addToCart_active _ _ _ _ _ _ Hp Hact). cbv zeta.
  destruct (Z.ltb_spec (p_stock p) quantity) as [|Hq]; [done|].
  destruct (findIndex productId (items (cartOf now s identifier))) as [[i x]|] eqn:E.
  - destruct (findIndex_Some_spec productId quantity p _ _ _ E) as [Hex Hl].
    destruct (Z.ltb_spec (p_stock p) (ci_quantity x + quantity)) as [|Hq']; [done|].
    intros [= <- <-]. exists p. rewrite Hex, Hl. done.
  - destruct (findIndex_None_spec productId quantity p _ E) as [Hex Hl].
    intros [= <- <-]. exists p. rewrite Hex, Hl. repeat split; try done.
Qed.

Lemma existingQuantity_addLine productId quantity p l :
  existingQuantity productId (addLine_spec productId quantity p l)
  = existingQuantity productId l + quantity.
Proof.
  induction l as [|x l IH]; simpl.
  - rewrite decide_True by done. lia.
  - destruct (decide (ci_product x = productId)) as [Heq|Hne]; simpl.
    + by rewrite decide_True.
    + by rewrite decide_False.
Qed.

Lemma existingQuantity_addLine_ne productId other quantity p l :
  other ≠ productId →
  existingQuantity other (addLine_spec productId quantity p l) = existingQuantity other l.
Proof.
  intros Hne. induction l as [|x l IH]; simpl.
  - by rewrite decide_False.
  - destruct (decide (ci_product x = productId)) as [Heq|Hne']; simpl.
    + rewrite Heq. by rewrite !decide_False.
    + destruct (decide (ci_product x = other)); [done|apply IH].
Qed.

Lemma sum_quantity_addLine productId quantity p l :
  sum_quantity (addLine_spec productId quantity p l) = sum_quantity l + quantity.
Proof.
  induction l as [|x l IH]; simpl; [lia|].
  destruct (decide (ci_product x = productId)); simpl; lia.
Qed.

Lemma delete_is_filter productId l : ∀ i x,
  lines_distinct l →
  findIndex productId l = Some (i, x) →
  delete i l = filter (λ item, ci_product item ≠ productId) l.
Proof.
  induction l as [|y l IH]; intros i x Hnd; [done|].
  apply NoDup_cons in Hnd as [Hy Hnd].
  rewrite findIndex_cons, filter_cons.
  destruct (decide (ci_product y = productId)) as [Heq|Hne].
  - intros [= <- <-]. rewrite decide_False by (by intros ?). simpl.
    symmetry. apply filter_absent. apply Forall_forall. intros z Hz Hzp.
    apply Hy. rewrite Heq, <- Hzp. by apply list_elem_of_fmap_2.
  - rewrite decide_True by done.
    destruct (findIndex productId l) as [[j z]|] eqn:E; [|done].
    intros [= <- <-]. simpl. f_equal. by eapply IH.
Qed.

Lemma existingQuantity_set productId q l : ∀ i x,
  findIndex productId l = Some (i, x) →
  existingQuantity productId (<[i := set_quantity x q]> l) = q.
Proof.
  induction l as [|y l IH]; intros i x; [done|].
  rewrite findIndex_cons. destruct (decide (ci_product y = productId)) as [Heq|Hne].
  - intros [= <- <-]. simpl. by rewrite decide_True.
  - destruct (findIndex productId l) as [[j z]|] eqn:E; [|done].
    intros [= <- <-]. simpl. rewrite decide_False by done. by eapply IH.
Qed.

Lemma existingQuantity_set_ne productId other q l : ∀ i x,
  other ≠ productId →
  findIndex productId l = Some (i, x) →
  existingQuantity other (<[i := set_quantity x q]> l) = existingQuantity other l.
Proof.
  induction l as [|y l IH]; intros i x Hne; [done|].
  rewrite findIndex_cons. destruct (decide (ci_product y = productId)) as [Heq|Hne'].
  - intros [= <- <-]. simpl. rewrite Heq. by rewrite !decide_False.
  - destruct (findIndex productId l) as [[j z]|] eqn:E; [|done].
    intros [= <- <-]. simpl.
    destruct (decide (ci_product y = other)); [done|by eapply IH].
Qed.

End CartLines.

(** X5. Adding and removing undo each other: when a product with no line in
    the actor's cart is added successfully and then removed, the stored cart
    has the lines it had before the add. *)
Theorem add_then_remove now now' identifier productId quantity s c1 s1 :
  Forall (λ item, ci_product item ≠ productId) (items (cartOf now s identifier)) →
  addToCart now identifier productId quantity s = (inr c1, s1) →
  ∃ c2, removeFromCart now' identifier productId s1 = (inr c2, store identifier c2 s1) ∧
        items c2 = items (cartOf now s identifier) ∧
        cart_totals_ok c2.
Proof.
  intros Habs Hadd.
  apply addToCart_success in Hadd as (p & _ & _ & _ & _ & Hitems & ->).
  rewrite removeFromCart_eq. cbv zeta. rewrite materialise_store, cartOf_store.
  eexists. split; [done|]. split; [|apply calculateCartTotals_ok]. simpl.
  rewrite Hitems.
  destruct (findIndex_None_spec productId quantity p (items (cartOf now s identifier)))
    as [_ ->]; [by apply list_find_None|].
  rewrite filter_app, (filter_absent _ _ Habs). simpl.
  rewrite filter_cons, decide_False by (by intros ?). by rewrite app_nil_r.
Qed.

Lemma add_then_remove_witness :
  Forall (λ item, ci_product item ≠ "B") (items (cartOf 7 cartState "u")) ∧
  ∃ c1 s1 c2,
    addToCart 7 "u" "B" 2 cartState = (inr c1, s1) ∧
    removeFromCart 8 "u" "B" s1 = (inr c2, store "u" c2 s1) ∧
    items c2 = items (cartOf 7 cartState "u") ∧ cart_totals_ok c2.
Proof.
  assert (H : Forall (λ item, ci_product item ≠ "B") (items (cartOf 7 cartState "u"))).
  { apply Forall_cons; split; [discriminate|apply Forall_nil_2]. }
  split; [exact H|].
  eexists _, (addToCart 7 "u" "B" 2 cartState).2.
  assert (Hadd : addToCart 7 "u" "B" 2 cartState
                 = (inr (calculateCartTotals 7 (mkCart [lineA 2; lineB 2] 0 0 0)),
                    (addToCart 7 "u" "B" 2 cartState).2)) by (vm_compute; reflexivity).
  destruct (add_then_remove 7 8 "u" "B" 2 cartState _ _ H Hadd) as (c2 & Hrem & Hi & Hok).
  exists c2. split; [exact Hadd|]. split; [exact Hrem|]. split; [exact Hi|exact Hok].
Defined.

(** X6. For a product that has a line in a cart with one line per product,
    [updateCartItem] with a quantity of 0 or less is [removeFromCart]: both
    give the same answer and leave the same state. *)
Theorem update_to_zero_is_remove now identifier productId quantity s :
  quantity ≤ 0 →
  lines_distinct (items (cartOf now s identifier)) →
  productId ∈ ci_product <$> items (cartOf now s identifier) →
  updateCartItem now identifier productId quantity s
  = removeFromCart now identifier productId s.
Proof.
  intros Hq Hnd Hin.
  apply list_elem_of_fmap in Hin as (item & Heq & Hitem).
  destruct (list_find_elem_of (λ item, ci_product item = productId) _ item Hitem)
    as [[i x] E]; [done|].
  rewrite (updateCartItem_present _ _ _ _ _ _ _ E), removeFromCart_eq. cbv zeta.
  rewrite (proj2 (Z.leb_le _ _) Hq), (findIndex_Some_stored _ _ _ _ _ _ E).
  by rewrite (delete_is_filter _ _ _ _ Hnd E).
Qed.

Lemma update_to_zero_is_remove_witness :
  0 ≤ 0 ∧
  lines_distinct (items (cartOf 7 orphanState "u")) ∧
  "gone" ∈ ci_product <$> items (cartOf 7 orphanState "u") ∧
  updateCartItem 7 "u" "gone" 0 orphanState = removeFromCart 7 "u" "gone" orphanState.
Proof.
  assert (H1 : lines_distinct (items (cartOf 7 orphanState "u"))).
  { apply (bool_decide_unpack _). vm_compute. reflexivity. }
  assert (H2 : "gone" ∈ ci_product <$> items (cartOf 7 orphanState "u")).
  { apply (bool_decide_unpack _). vm_compute. reflexivity. }
  split; [lia|]. split; [exact H1|]. split; [exact H2|].
  exact (update_to_zero_is_remove 7 "u" "gone" 0 orphanState ltac:(lia) H1 H2).
Defined.

(** X7. [updateCartItem] sets, it does not add: for a product with a line in
    the cart and a document in the catalog, and a quantity above 0, the
    request fails with [InsufficientStock], changing nothing, when the stock
    is below the quantity; otherwise the cart holds exactly the requested
    quantity of the product, holds of every other product what it held, has
    as many lines and recomputed totals.  Whether the product is still active
    is not looked at. *)
Theorem updateCartItem_sets_quantity now identifier productId quantity s p :
  0 < quantity →
  productId ∈ ci_product <$> items (cartOf now s identifier) →
  products s !! productId = Some p →
  (p_stock p < quantity →
     updateCartItem now identifier productId quantity s = (inl InsufficientStock, s)) ∧
  (quantity ≤ p_stock p →
     ∃ c', updateCartItem now identifier productId quantity s
             = (inr c', store identifier c' s) ∧
           existingQuantity productId (items c') = quantity ∧
           (∀ other, other ≠ productId →
              existingQuantity other (items c')
              = existingQuantity other (items (cartOf now s identifier))) ∧
           length (items c') = length (items (cartOf now s identifier)) ∧
           cart_totals_ok c').
Proof.
  intros Hq Hin Hp.
  apply list_elem_of_fmap in Hin as (item & Heq & Hitem).
  destruct (list_find_elem_of (λ item, ci_product item = productId) _ item Hitem)
    as [[i x] E]; [done|].
  rewrite (updateCartItem_present _ _ _ _ _ _ _ E), Hp. cbv zeta.
  rewrite (proj2 (Z.leb_gt _ _)) by lia. split; intros Hs.
  - by rewrite (proj2 (Z.ltb_lt _ _)).
  - rewrite (proj2 (Z.ltb_ge _ _)) by done.
    eexists. split; [done|]. simpl.
    split; [by eapply existingQuantity_set|].
    split; [intros other Hne; by eapply existingQuantity_set_ne|].
    split; [apply length_insert|apply calculateCartTotals_ok].
Qed.

Lemma updateCartItem_sets_quantity_witness :
  0 < 4 ∧
  "A" ∈ ci_product <$> items (cartOf 7 cartState "u") ∧
  products cartState !! "A" = Some (productA 5) ∧
  updateCartItem 7 "u" "A" 6 cartState = (inl InsufficientStock, cartState) ∧
  ∃ c', updateCartItem 7 "u" "A" 4 cartState = (inr c', store "u" c' cartState) ∧
        existingQuantity "A" (items c') = 4.
Proof.
  assert (H2 : "A" ∈ ci_product <$> items (cartOf 7 cartState "u")).
  { apply (bool_decide_unpack _). vm_compute. reflexivity. }
  assert (H3 : products cartState !! "A" = Some (productA 5)) by reflexivity.
  split; [lia|]. split; [exact H2|]. split; [exact H3|].
  split.
  - apply (updateCartItem_sets_quantity 7 "u" "A" 6 cartState _ ltac:(lia) H2 H3).
    simpl. lia.
  - destruct (updateCartItem_sets_quantity 7 "u" "A" 4 cartState _ ltac:(lia) H2 H3)
      as [_ Hok].
    destruct Hok as (c' & Hrun & Hex & _); [simpl; lia|].
    exists c'. split; [exact Hrun|exact Hex].
Defined.

(** X9. No cart line beyond the stock at the time it is written: whenever
    [addToCart] succeeds, the product is in the catalog and active, the cart
    holds of it the quantity it held plus the added one, and that quantity is
    at most the product's stock; of every other product the cart holds what
    it held. *)
Theorem addToCart_within_stock now identifier productId quantity s c' s' :
  addToCart now identifier productId quantity s = (inr c', s') →
  ∃ p, products s !! productId = Some p ∧ p_isActive p = true ∧
       existingQuantity productId (items c')
       = existingQuantity productId (items (cartOf now s identifier)) + quantity ∧
       existingQuantity productId (items c') ≤ p_stock p ∧
       (∀ other, other ≠ productId →
          existingQuantity other (items c')
          = existingQuantity other (items (cartOf now s identifier))) ∧
       redis s' !! identifier = Some c'.
Proof.
  intros Hadd.
  apply addToCart_success in Hadd as (p & Hp & Hact & _ & Hq & Hitems & ->).
  exists p. rewrite Hitems, existingQuantity_addLine.
  split; [done|]. split; [done|]. split; [done|]. split; [done|].
  split; [intros other Hne; by apply existingQuantity_addLine_ne|].
  simpl. apply lookup_insert_eq.
Qed.

Lemma addToCart_within_stock_witness :
  ∃ c' s',
    addToCart 7 "u" "A" 3 cartState = (inr c', s') ∧
    existingQuantity "A" (items c') = 5 ∧
    redis s' !! "u" = Some c'.
Proof.
  eexists _, (addToCart 7 "u" "A" 3 cartState).2.
  assert (Hadd : addToCart 7 "u" "A" 3 cartState
                 = (inr (calculateCartTotals 7 (mkCart [lineA 5] 0 0 0)),
                    (addToCart 7 "u" "A" 3 cartState).2)) by (vm_compute; reflexivity).
  destruct (addToCart_within_stock 7 "u" "A" 3 cartState _ _ Hadd)
    as (p & _ & _ & Hex & _ & _ & Hr).
  split; [exact Hadd|]. split; [exact Hex|exact Hr].
Defined.

Section MergeQuantities.

Lemma addEach_sum now userId l : ∀ s s',
  addEach now userId l s = (inr tt, s') →
  sum_quantity (items (cartOf now s' userId))
  = sum_quantity (items (cartOf now s userId)) + sum_quantity l.
Proof.
  induction l as [|x l IH]; intros s s'.
  - intros [= <-]. simpl. lia.
  - rewrite addEach_cons.
    destruct (addToCart now userId (ci_product x) (ci_quantity x) s) as [[e|c] s1] eqn:Hadd;
      [done|].
    intros Hrest. rewrite (IH _ _ Hrest).
    apply addToCart_success in Hadd as (p & _ & _ & _ & _ & Hitems & ->).
    rewrite cartOf_store, Hitems, sum_quantity_addLine. simpl. lia.
Qed.

End MergeQuantities.

(** X10. A successful merge loses and duplicates nothing: when the merge of a
    session cart into the cart of a different identifier is answered with the
    merged cart, the total quantity of that cart is the total the user's cart
    held plus the total the session cart held, its totals are consistent, it
    is the cart stored for the user, and the session cart is empty
    afterwards. *)
Theorem mergeCart_conserves_quantity now userId sessionId s c s' :
  userId ≠ sessionId →
  mergeCart now userId (Some sessionId) s = (MergeOk c, s') →
  sum_quantity (items c)
  = sum_quantity (items (cartOf now s userId))
    + sum_quantity (items (cartOf now s sessionId)) ∧
  redis s' !! userId = Some c ∧
  items (cartOf now s' sessionId) = [].
Proof.
  intros Hne. unfold mergeCart. case_decide; [done|].
  rewrite mergeBody_eq. cbv zeta. case_bool_decide as Hempty.
  - rewrite getCart_eq. intros [= <- <-].
    split; [|split; [apply materialise_lookup|]].
    + rewrite cartOf_materialise_ne by done. rewrite Hempty. simpl. lia.
    + rewrite cartOf_materialise_ne by (by intros ->).
      unfold cartOf at 1. by rewrite materialise_lookup.
  - destruct (addEach now userId (items (cartOf now s sessionId))
                (materialise now sessionId s)) as [[e|[]] s2] eqn:Hall; [done|].
    rewrite getCart_eq. intros [= <- <-].
    split; [|split; [apply materialise_lookup|]].
    + rewrite cartOf_store_ne by done.
      by rewrite (addEach_sum _ _ _ _ _ Hall), cartOf_materialise_ne by done.
    + rewrite cartOf_materialise_ne by (by intros ->). by rewrite cartOf_store.
Qed.

Lemma mergeCart_conserves_quantity_witness :
  "user" ≠ "u" ∧
  ∃ c s',
    mergeCart 7 "user" (Some "u") cartState = (MergeOk c, s') ∧
    sum_quantity (items c) = 0 + 2 ∧
    redis s' !! "user" = Some c ∧
    items (cartOf 7 s' "u") = [].
Proof.
  assert (H : "user" ≠ "u") by discriminate.
  split; [exact H|].
  eexists _, (mergeCart 7 "user" (Some "u") cartState).2.
  assert (Hrun : mergeCart 7 "user" (Some "u") cartState
                 = (MergeOk (calculateCartTotals 7 (mkCart [lineA 2] 0 0 0)),
                    (mergeCart 7 "user" (Some "u") cartState).2))
    by (vm_compute; reflexivity).
  destruct (mergeCart_conserves_quantity 7 "user" "u" cartState _ _ H Hrun)
    as (Hsum & Hr & Hsess).
  split; [exact Hrun|]. split; [exact Hsum|]. split; [exact Hr|exact Hsess].
Defined.

(** ** Product service *)

Section SoftDelete.

Lemma deleteProduct_found productId s p :
  products s !! productId = Some p →
  deleteProduct productId s =
    (inr tt, with_products s (<[productId := set_isActive p false]> (products s))).
Proof. intros Hp. unfold deleteProduct. munfold. by rewrite Hp. Qed.

(** The errors of the check loop are those of its lines. *)
Lemma checkItems_error l : ∀ acc sub s e,
  (checkItems l acc sub s).1 = inl e → e ≠ OrderValidationFailed.
Proof.
  induction l as [|x l IH]; intros acc sub s e; [done|].
  simpl. unfold mbind, M_bind, findById, throw.
  destruct (products s !! ci_product x) as [p|]; [|by intros [= <-]].
  destruct (p_isActive p); [|by intros [= <-]]. simpl.
  destruct (p_stock p <? ci_quantity x); [by intros [= <-]|]. apply IH.
Qed.

Lemma checkItems_needs_active l acc sub s item p :
  item ∈ l → products s !! ci_product item = Some p → p_isActive p = false →
  ∃ e, e ≠ OrderValidationFailed ∧ checkItems l acc sub s = (inl e, s).
Proof.
  intros Hin Hp Hact.
  pose proof (checkItems_state l acc sub s) as Hst.
  pose proof (checkItems_success l acc sub s) as Hok.
  pose proof (checkItems_error l acc sub s) as Herr.
  destruct (checkItems l acc sub s) as [[e|[oi st]] s1]; simpl in Hst; subst s1;
    [exists e; split; [by apply Herr|done]|].
  destruct (Hok oi st eq_refl) as (Hall & _). rewrite Forall_forall in Hall.
  destruct (Hall item Hin) as (p' & Hp' & Hact' & _). congruence.
Qed.

End SoftDelete.

(** X14. Soft delete: [deleteProduct] on a missing product fails with
    'Product not found' and changes nothing.  On a stored product it keeps
    the document and every stock quantity, carts and orders, and takes the
    product off sale: afterwards [getProductById] answers 'Product is not
    active', every [addToCart] of the product fails with [ProductNotFound],
    and [createOrder] fails for every cart that holds a line of the product,
    in the check of the lines and so before the save, each without changing
    the state. *)
Theorem deleteProduct_takes_off_sale productId s :
  (products s !! productId = None →
     deleteProduct productId s = (inl ProductNotFound, s)) ∧
  ∀ s1, deleteProduct productId s = (inr tt, s1) →
    (∀ other, available s1 other = available s other) ∧
    redis s1 = redis s ∧ orders s1 = orders s ∧
    getProductById productId s1 = inl LookupNotActive ∧
    (∀ now identifier quantity,
       addToCart now identifier productId quantity s1 = (inl ProductNotFound, s1)) ∧
    (∀ now userId orderData,
       productId ∈ ci_product <$> items (cartOf now s1 userId) →
       ∃ e, e ≠ OrderValidationFailed ∧
            createOrder now userId orderData s1 = (inl e, s1)).
Proof.
  split.
  - intros Hp. unfold deleteProduct. munfold. by rewrite Hp.
  - intros s1 Hdel. destruct (products s !! productId) as [p|] eqn:Hp;
      [|unfold deleteProduct in Hdel; munfold; by rewrite Hp in Hdel].
    rewrite (deleteProduct_found _ _ _ Hp) in Hdel. injection Hdel as <-.
    assert (Hp1 : products (with_products s (<[productId := set_isActive p false]> (products s)))
                    !! productId = Some (set_isActive p false))
      by (simpl; apply lookup_insert_eq).
    split.
    { intros other. unfold available. simpl.
      destruct (decide (productId = other)) as [<-|Hne].
      - by rewrite lookup_insert_eq, Hp.
      - by rewrite lookup_insert_ne. }
    split; [done|]. split; [done|].
    split; [unfold getProductById; by rewrite Hp1|].
    split.
    { intros now identifier quantity. apply addToCart_unavailable. right. eauto. }
    intros now userId orderData Hin.
    apply list_elem_of_fmap in Hin as (item & Heq & Hitem).
    rewrite createOrder_eq, bool_decide_false
      by (intros Hnil; rewrite Hnil in Hitem; by apply elem_of_nil in Hitem).
    edestruct (checkItems_needs_active _ [] 0%float
                 (with_products s (<[productId := set_isActive p false]> (products s)))
                 item (set_isActive p false) Hitem)
      as (e & He & ->); [by rewrite <- Heq|done|]. by exists e.
Qed.

Lemma deleteProduct_takes_off_sale_witness :
  ∃ s1, deleteProduct "B" twoLineState = (inr tt, s1) ∧
        available s1 "B" = Some 5 ∧
        getProductById "B" s1 = inl LookupNotActive ∧
        addToCart 7 "v" "B" 1 s1 = (inl ProductNotFound, s1) ∧
        createOrder 7 "u" sampleOrderData s1 = (inl (ProductNotFoundNamed "Desk"), s1).
Proof.
  exists (deleteProduct "B" twoLineState).2.
  assert (Hdel : deleteProduct "B" twoLineState = (inr tt, (deleteProduct "B" twoLineState).2))
    by (vm_compute; reflexivity).
  destruct (deleteProduct_takes_off_sale "B" twoLineState) as [_ Hoff].
  destruct (Hoff _ Hdel) as (Hav & _ & _ & Hget & Hadd & _).
  split; [exact Hdel|]. split; [rewrite Hav; reflexivity|].
  split; [exact Hget|]. split; [exact (Hadd 7 "v" 1)|].
  vm_compute. reflexivity.
Defined.

(** ** Product model: the final price *)

Section Doubles.

Lemma Prim2SF_zero : Prim2SF 0 = S754_zero false.
Proof. reflexivity. Qed.

Lemma double_ltb_leb (x y : float) : (x <? y)%float = true → (x <=? y)%float = true.
Proof.
  rewrite ltb_spec, leb_spec. unfold SFltb, SFleb.
  by destruct (SFcompare _ _) as [[]|].
Qed.

Lemma double_leb_refl (x : float) : (0 <=? x)%float = true → (x <=? x)%float = true.
Proof.
  rewrite !leb_spec, Prim2SF_zero. unfold SFleb.
  destruct (Prim2SF x) as [sign|sign| |sign m e]; simpl; try done.
  - by destruct sign.
  - destruct sign; [done|]. intros _.
    by rewrite Z.compare_refl, Pos.compare_cont_refl.
Qed.

Lemma isFalsy_not_positive (x : float) : isFalsy x = true → (0 <? x)%float = false.
Proof.
  unfold isFalsy. intros [Hz|Hnan]%orb_true_iff.
  - revert Hz. rewrite FloatAxioms.eqb_spec, ltb_spec, Prim2SF_zero. unfold SFeqb, SFltb.
    destruct (Prim2SF x) as [sign|sign| |sign m e]; simpl; try done; by destruct sign.
  - rewrite ltb_spec, Prim2SF_zero. unfold Prim2SF at 1. by rewrite Hnan.
Qed.

End Doubles.

(** X15. For a product whose prices pass the schema validators (both at
    least 0, the discount price falsy or below the price), the final price
    lies between 0 and the list price; it is the discount price when there is
    a discount and the list price when the discount price is 0. *)
Theorem finalPrice_bounds p :
  prices_valid p →
  (0 <=? finalPrice p)%float = true ∧ (finalPrice p <=? p_price p)%float = true ∧
  ((0 <? p_discountPrice p)%float = true → finalPrice p = p_discountPrice p) ∧
  ((p_discountPrice p =? 0)%float = true → finalPrice p = p_price p).
Proof.
  intros (Hprice & Hdisc & Hval). unfold finalPrice.
  destruct (isFalsy (p_discountPrice p)) eqn:E.
  - split; [done|]. split; [by apply double_leb_refl|].
    split; [|done]. intros Hpos. by rewrite (isFalsy_not_positive _ E) in Hpos.
  - split; [done|].
    destruct Hval as [Hz|Hlt]; [done|].
    split; [by apply double_ltb_leb|]. split; [done|].
    intros Hz. unfold isFalsy in E. by rewrite Hz in E.
Qed.

Lemma finalPrice_bounds_witness :
  prices_valid (productA 3) ∧
  (0 <=? finalPrice (productA 3))%float = true ∧
  (finalPrice (productA 3) <=? 100)%float = true ∧
  finalPrice (productA 3) = 80%float.
Proof.
  assert (H : prices_valid (productA 3)).
  { split; [reflexivity|]. split; [reflexivity|]. right. reflexivity. }
  destruct (finalPrice_bounds (productA 3) H) as (H0 & H1 & H2 & _).
  split; [exact H|]. split; [exact H0|]. split; [exact H1|].
  apply H2. reflexivity.
Defined.

(** ** Order service: what the lifecycle never changes *)

Section Commercials.

Lemma same_commercials_refl o : same_commercials o o.
Proof. by repeat split. Qed.

Lemma same_commercials_trans o1 o2 o3 :
  same_commercials o1 o2 → same_commercials o2 o3 → same_commercials o1 o3.
Proof.
  unfold same_commercials. intros H12 H23.
  destruct H12 as (?&?&?&?&?&?&?&?&?), H23 as (?&?&?&?&?&?&?&?&?).
  repeat split; congruence.
Qed.

Lemma updateStatus_same now newStatus note o :
  same_commercials o (updateStatus now newStatus note o).
Proof. unfold updateStatus. repeat case_decide; by repeat split. Qed.

Lemma kept_insert (l : list Order) i o' :
  (∀ o, l !! i = Some o → same_commercials o o') →
  ∀ j o, l !! j = Some o → ∃ o'', <[i := o']> l !! j = Some o'' ∧ same_commercials o o''.
Proof.
  intros Hi j o Hj. destruct (decide (i = j)) as [->|Hne].
  - exists o'. split; [|by apply Hi].
    apply list_lookup_insert_eq. by eapply lookup_lt_Some.
  - exists o. rewrite list_lookup_insert_ne by done.
    split; [done|apply same_commercials_refl].
Qed.

Lemma runOrderOp_keeps now op s :
  (length (orders s) ≤ length (orders (runOrderOp now op s)))%nat ∧
  ∀ j o, orders s !! j = Some o →
    ∃ o', orders (runOrderOp now op s) !! j = Some o' ∧ same_commercials o o'.
Proof.
  destruct op as [userId orderData|orderId status note|orderId userId reason]; simpl.
  - destruct (createOrder_outcome now userId orderData s) as [e ->]. simpl.
    rewrite materialise_orders.
    split; [lia|]. intros j o Hj. exists o. split; [done|apply same_commercials_refl].
  - destruct (orders s !! orderId) as [o|] eqn:Ho.
    + rewrite (updateOrderStatus_found _ _ _ _ _ _ Ho). simpl.
      split; [by rewrite length_insert|].
      apply kept_insert. intros o' Ho'. simplify_eq. apply updateStatus_same.
    + unfold updateOrderStatus. munfold. rewrite Ho. simpl.
      split; [lia|]. intros j o Hj. exists o. split; [done|apply same_commercials_refl].
  - assert (Hcase : orders (cancelOrder now orderId userId reason s).2 = orders s ∨
                    ∃ o, orders s !! orderId = Some o ∧
                         orders (cancelOrder now orderId userId reason s).2
                         = <[orderId := set_cancelledAt (set_status o cancelled) now]>
                             (orders s)).
    { destruct (orders s !! orderId) as [o|] eqn:Ho;
        [|left; unfold cancelOrder; munfold; by rewrite Ho].
      destruct (decide (o_user o = userId)) as [Hu|Hu];
        [|left; unfold cancelOrder; munfold; rewrite Ho; by rewrite decide_False].
      rewrite (cancelOrder_found _ _ _ _ _ _ Ho Hu).
      case_bool_decide; [|by left].
      pose proof (restoreEach_frame (o_items o) s) as [Hord _].
      destruct (restoreEach (o_items o) s) as [[e|[]] s1]; simpl in *; [by left|].
      right. exists o. by rewrite Hord. }
    destruct Hcase as [-> | (o & Ho & ->)].
    + split; [lia|]. intros j o Hj. exists o. split; [done|apply same_commercials_refl].
    + split; [by rewrite length_insert|].
      apply kept_insert. intros o' Ho'. simplify_eq. by repeat split.
Qed.

End Commercials.

(** X20. Orders are never deleted and their commercial content never changes:
    through every sequence of order requests (create, status update, cancel),
    succeeding or failing, every stored order stays stored under its id with
    the same owner, lines, addresses, payment method, subtotal, shipping
    cost, tax and total; only the status, its timestamps and new orders are
    written. *)
Theorem orders_are_immutable requests s :
  (length (orders s) ≤ length (orders (runOrderOps requests s)))%nat ∧
  ∀ j o, orders s !! j = Some o →
    ∃ o', orders (runOrderOps requests s) !! j = Some o' ∧ same_commercials o o'.
Proof.
  revert s. induction requests as [|[now op] requests IH]; intros s.
  - split; [done|]. intros j o Hj. exists o. split; [done|apply same_commercials_refl].
  - simpl. destruct (runOrderOp_keeps now op s) as [Hlen Hkeep].
    destruct (IH (runOrderOp now op s)) as [Hlen' Hkeep'].
    split; [lia|]. intros j o Hj.
    destruct (Hkeep j o Hj) as (o1 & Hj1 & Hs1).
    destruct (Hkeep' j o1 Hj1) as (o2 & Hj2 & Hs2).
    exists o2. split; [done|by eapply same_commercials_trans].
Qed.

(** On [orderState]: the order request is rejected, the stored order is
    shipped, and its cancellation is then refused; one order is stored, with
    its lines, and the stock is as it was. *)
Example orders_after_requests :
  let s' := runOrderOps sampleOrderRequests orderState in
  length (orders s') = 1%nat ∧
  o_status <$> orders s' !! 0%nat = Some shipped ∧
  (λ o, oi_product <$> o_items o) <$> orders s' !! 0%nat = Some ["A"; "B"] ∧
  available s' "A" = Some 3.
Proof. repeat split; vm_compute; reflexivity. Qed.

(** ** Order service: who may read and cancel an order *)

(** X19. Orders are private to their owner: for an id under which no order is
    stored, and for an order stored for another user, both [getOrderById] and
    [cancelOrder] answer 'Order not found' and change nothing (no stock is
    restored, the order keeps its status). *)
Theorem orders_are_private orderId userId s :
  (orders s !! orderId = None ∨
   ∃ o, orders s !! orderId = Some o ∧ o_user o ≠ userId) →
  getOrderById orderId userId s = (inl OrderNotFound, s) ∧
  ∀ now reason, cancelOrder now orderId userId reason s = (inl OrderNotFound, s).
Proof.
  intros Hcase.
  assert (Hfind : findOrder orderId userId s = (inr None, s)).
  { unfold findOrder. destruct Hcase as [-> | (o & -> & Hne)]; [done|].
    by rewrite decide_False. }
  split.
  - unfold getOrderById. unfold mbind, M_bind. by rewrite Hfind.
  - intros now reason. unfold cancelOrder. unfold mbind at 1. unfold M_bind at 1.
    by rewrite Hfind.
Qed.

Lemma orders_are_private_witness :
  (∃ o, orders orderState !! 0%nat = Some o ∧ o_user o ≠ "v") ∧
  getOrderById 0 "v" orderState = (inl OrderNotFound, orderState) ∧
  cancelOrder 8 0 "v" "not mine" orderState = (inl OrderNotFound, orderState) ∧
  available orderState "A" = Some 3.
Proof.
  assert (H : ∃ o, orders orderState !! 0%nat = Some o ∧ o_user o ≠ "v").
  { exists sampleOrder. split; [reflexivity|discriminate]. }
  destruct (orders_are_private 0 "v" orderState (or_intror H)) as [Hget Hcancel].
  split; [exact H|]. split; [exact Hget|]. split; [exact (Hcancel 8 "not mine")|].
  reflexivity.
Defined.

(** ** Order service: the guard of a cancellation *)

(** X21. [cancelOrder] refuses its owner's order once it is past confirmation:
    for a stored order whose status is processing, shipped, delivered or
    cancelled the call fails with 'This order cannot be cancelled', before
    any stock update, and the catalog, the carts and the orders are as they
    were. *)
Theorem cancelOrder_refused_by_status now orderId userId reason s o :
  orders s !! orderId = Some o →
  o_user o = userId →
  o_status o ∈ [processing; shipped; delivered; cancelled] →
  cancelOrder now orderId userId reason s = (inl OrderNotCancellable, s) ∧
  ∀ productId, available (cancelOrder now orderId userId reason s).2 productId
               = available s productId.
Proof.
  intros Ho Hu Hst.
  assert (Hrun : cancelOrder now orderId userId reason s = (inl OrderNotCancellable, s)).
  { apply (cancelOrder_guard _ _ _ _ _ o Ho Hu); intros Heq; rewrite Heq in Hst;
      repeat (apply elem_of_cons in Hst as [Hst|Hst]; [discriminate|]);
      by apply elem_of_nil in Hst. }
  split; [exact Hrun|]. intros productId. by rewrite Hrun.
Qed.

Lemma cancelOrder_refused_by_status_witness :
  orders shippedState !! 0%nat = Some (set_status sampleOrder shipped) ∧
  o_status (set_status sampleOrder shipped) ∈ [processing; shipped; delivered; cancelled] ∧
  cancelOrder 3 0 "u" "too late" shippedState = (inl OrderNotCancellable, shippedState) ∧
  available (cancelOrder 3 0 "u" "too late" shippedState).2 "A" = Some 3.
Proof.
  assert (Hin : o_status (set_status sampleOrder shipped)
                ∈ [processing; shipped; delivered; cancelled]).
  { apply elem_of_cons. right. apply elem_of_cons. by left. }
  destruct (cancelOrder_refused_by_status 3 0 "u" "too late" shippedState
              (set_status sampleOrder shipped) eq_refl eq_refl Hin) as [Hrun Hav].
  split; [reflexivity|]. split; [exact Hin|]. split; [exact Hrun|].
  rewrite Hav. reflexivity.
Defined.

(** ** Order service: listing a user's orders page by page *)

Section Pages.

Lemma chunks_concat {A} (n : nat) (k : nat) : ∀ l : list A,
  (length l ≤ k * n)%nat →
  concat ((λ i, take n (drop (i * n) l)) <$> seq 0 k) = l.
Proof.
  induction k as [|k IH]; intros l Hlen.
  - simpl in *. destruct l; [done|simpl in Hlen; lia].
  - simpl. rewrite drop_0. rewrite <- fmap_S_seq, <- list_fmap_compose.
    rewrite (list_fmap_ext _ (λ i, take n (drop (i * n) (drop n l)))).
    + rewrite IH; [apply take_drop|]. rewrite length_drop. lia.
    + intros _ i _. simpl. by rewrite drop_drop.
Qed.

Lemma ceilDiv_covers total limit :
  1 ≤ limit → 0 ≤ total → total ≤ ceilDiv total limit * limit.
Proof.
  intros Hl Ht. unfold ceilDiv.
  pose proof (Z.mul_succ_div_gt (total + limit - 1) limit ltac:(lia)). lia.
Qed.

Lemma ceilDiv_nonneg total limit : 1 ≤ limit → 0 ≤ total → 0 ≤ ceilDiv total limit.
Proof. intros Hl Ht. unfold ceilDiv. apply Z.div_pos; lia. Qed.

Lemma ordersOf_owner userId s : Forall (λ o, o_user o = userId) (ordersOf userId s).
Proof.
  unfold ordersOf. apply Forall_reverse, Forall_forall.
  by intros o [Ho _]%list_elem_of_filter.
Qed.

Lemma page_skip (i : nat) limit :
  1 ≤ limit →
  Z.to_nat ((Z.of_nat (S i) - 1) * limit) = (i * Z.to_nat limit)%nat.
Proof.
  intros Hl. replace (Z.of_nat (S i) - 1) with (Z.of_nat i) by lia.
  rewrite Z2Nat.inj_mul by lia. by rewrite Nat2Z.id.
Qed.

End Pages.

(** X23. Paging through a user's orders, for a limit of at least 1: every
    page holds only orders of that user and at most [limit] of them; a page
    beyond [totalPages] is empty; [totalItems] is the number of the user's
    orders; and the pages 1 to [totalPages], one after the other, are exactly
    the user's orders, newest first, none skipped and none repeated. *)
Theorem getUserOrders_pages userId limit s :
  1 ≤ limit →
  (∀ page, 1 ≤ page →
     Forall (λ o, o_user o = userId) (getUserOrders userId page limit s).1 ∧
     (length (getUserOrders userId page limit s).1 ≤ Z.to_nat limit)%nat ∧
     pg_totalItems (getUserOrders userId page limit s).2
       = Z.of_nat (length (filter (λ o, o_user o = userId) (orders s))) ∧
     (pg_totalPages (getUserOrders userId page limit s).2 < page →
        (getUserOrders userId page limit s).1 = [])) ∧
  concat ((λ k, (getUserOrders userId (Z.of_nat k) limit s).1)
            <$> seq 1 (Z.to_nat (ceilDiv (Z.of_nat (length (ordersOf userId s))) limit)))
  = ordersOf userId s.
Proof.
  intros Hl. split.
  - intros page Hp. unfold getUserOrders. simpl.
    split; [apply Forall_take, Forall_drop, ordersOf_owner|].
    split; [rewrite length_take; lia|].
    split; [unfold ordersOf; by rewrite length_reverse|].
    intros Hbeyond. rewrite drop_ge; [apply take_nil|].
    pose proof (ceilDiv_covers (Z.of_nat (length (ordersOf userId s))) limit Hl
                  ltac:(lia)) as Hc.
    nia.
  - rewrite <- fmap_S_seq, <- list_fmap_compose.
    rewrite (list_fmap_ext _
               (λ i, take (Z.to_nat limit) (drop (i * Z.to_nat limit) (ordersOf userId s)))).
    + apply chunks_concat.
      pose proof (ceilDiv_covers (Z.of_nat (length (ordersOf userId s))) limit Hl
                    ltac:(lia)) as Hc.
      pose proof (ceilDiv_nonneg (Z.of_nat (length (ordersOf userId s))) limit Hl
                    ltac:(lia)) as Hn.
      apply Nat2Z.inj_le. rewrite Nat2Z.inj_mul, !Z2Nat.id by lia. done.
    + intros _ i _. unfold getUserOrders. simpl. by rewrite page_skip.
Qed.

Lemma getUserOrders_pages_witness :
  1 ≤ 2 ∧
  (o_subtotal <$> (getUserOrders "u" 1 2 listingState).1 = [4%float; 3%float]) ∧
  (o_subtotal <$> (getUserOrders "u" 2 2 listingState).1 = [1%float]) ∧
  (getUserOrders "u" 3 2 listingState).1 = [] ∧
  pg_totalPages (getUserOrders "u" 1 2 listingState).2 = 2 ∧
  concat ((λ k, (getUserOrders "u" (Z.of_nat k) 2 listingState).1)
            <$> seq 1 (Z.to_nat
                         (ceilDiv (Z.of_nat (length (ordersOf "u" listingState))) 2)))
  = ordersOf "u" listingState.
Proof.
  destruct (getUserOrders_pages "u" 2 listingState ltac:(lia)) as [Hpage Hall].
  split; [lia|]. split; [vm_compute; reflexivity|]. split; [vm_compute; reflexivity|].
  split; [apply (Hpage 3 ltac:(lia)); vm_compute; reflexivity|].
  split; [vm_compute; reflexivity|exact Hall].
Defined.

(** ** Order assembly: failures and repetition *)

Section FirstBadLine.

Lemma checkItems_first_bad s item post : ∀ pre acc sub,
  Forall (line_ok (products s)) pre →
  ¬ line_ok (products s) item →
  checkItems (pre ++ item :: post) acc sub s = (inl (lineError (products s) item), s).
Proof.
  induction pre as [|x pre IH]; intros acc sub Hpre Hbad.
  - simpl. unfold mbind, M_bind, findById, throw, lineError.
    destruct (products s !! ci_product item) as [p|] eqn:Hp; [|done].
    destruct (p_isActive p) eqn:Hact; [|done]. simpl.
    destruct (Z.ltb_spec (p_stock p) (ci_quantity item)) as [|Hge]; [done|].
    destruct Hbad. by exists p.
  - apply Forall_cons in Hpre as [(p & Hp & Hact & Hq) Hpre].
    simpl. unfold mbind at 1. unfold M_bind, findById. rewrite Hp, Hact. simpl.
    rewrite (proj2 (Z.ltb_ge _ _)) by done. by apply IH.
Qed.

End FirstBadLine.

(** X8. [createOrder] reports the first line that does not pass the check and
    changes nothing: for a cart whose lines before some line all pass while
    that line does not, the call fails with the error of that line ('Product
    not found' with the name kept in the cart line when the product is
    missing or inactive, 'Insufficient stock' with the catalog name when the
    stock is below the line quantity), whatever the later lines are, and the
    state is as before.  An empty cart is refused with 'Cart is empty'. *)
Theorem createOrder_reports_first_bad_line now userId orderData s :
  (items (cartOf now s userId) = [] →
     createOrder now userId orderData s = (inl CartIsEmpty, materialise now userId s)) ∧
  ∀ pre item post,
    items (cartOf now s userId) = pre ++ item :: post →
    Forall (line_ok (products s)) pre →
    ¬ line_ok (products s) item →
    createOrder now userId orderData s = (inl (lineError (products s) item), s).
Proof.
  split.
  - intros Hnil. rewrite createOrder_eq. by rewrite bool_decide_true.
  - intros pre item post Hitems Hpre Hbad.
    rewrite createOrder_eq, bool_decide_false
      by (rewrite Hitems; by destruct pre).
    by rewrite Hitems, (checkItems_first_bad _ _ _ _ _ _ Hpre Hbad).
Qed.

Lemma createOrder_reports_first_bad_line_witness :
  items (cartOf 7 shortState "u") = [lineA 2] ++ lineB 1 :: [] ∧
  Forall (line_ok (products shortState)) [lineA 2] ∧
  ¬ line_ok (products shortState) (lineB 1) ∧
  createOrder 7 "u" sampleOrderData shortState
    = (inl (InsufficientStockNamed "Desk"), shortState).
Proof.
  assert (H1 : items (cartOf 7 shortState "u") = [lineA 2] ++ lineB 1 :: [])
    by reflexivity.
  assert (H2 : Forall (line_ok (products shortState)) [lineA 2]).
  { apply Forall_singleton. exists (productA 5).
    split; [reflexivity|]. split; [reflexivity|]. simpl. lia. }
  assert (H3 : ¬ line_ok (products shortState) (lineB 1)).
  { intros (p & Hp & _ & Hq). simpl in Hp.
    rewrite lookup_insert_ne in Hp by discriminate.
    apply lookup_singleton_Some in Hp as [_ <-]. simpl in Hq. lia. }
  split; [exact H1|]. split; [exact H2|]. split; [exact H3|].
  destruct (createOrder_reports_first_bad_line 7 "u" sampleOrderData shortState)
    as [_ Hbad].
  exact (Hbad _ _ _ H1 H2 H3).
Defined.

(** X11. No call of [createOrder] returns an order.  Every call fails: with
    'Cart is empty', with the error of the first line that does not pass the
    check, or, for a cart that is not empty and whose lines all pass, with the
    validation error of the save, since the document is built without the
    required order number.  In every case the catalog, the orders and the
    lines of the cart are as before: no order is stored, no stock is taken and
    the cart is not cleared. *)
Theorem createOrder_never_succeeds now userId orderData s :
  ∃ e,
    createOrder now userId orderData s = (inl e, materialise now userId s) ∧
    orders (materialise now userId s) = orders s ∧
    products (materialise now userId s) = products s ∧
    cartOf now (materialise now userId s) userId = cartOf now s userId ∧
    (e = OrderValidationFailed ↔
       items (cartOf now s userId) ≠ [] ∧
       Forall (line_ok (products s)) (items (cartOf now s userId))).
Proof.
  assert (Hcart : cartOf now (materialise now userId s) userId = cartOf now s userId).
  { unfold cartOf at 1. by rewrite materialise_lookup. }
  rewrite createOrder_eq. case_bool_decide as Hempty.
  - exists CartIsEmpty. split; [done|].
    rewrite materialise_orders, materialise_products. do 3 (split; [done|]).
    split; [done|]. by intros [Hne _].
  - assert (Hs : materialise now userId s = s).
    { unfold materialise, cartOf in *. by destruct (redis s !! userId). }
    rewrite Hs.
    pose proof (checkItems_success (items (cartOf now s userId)) [] 0%float s) as Hok.
    pose proof (checkItems_error (items (cartOf now s userId)) [] 0%float s) as Herr.
    pose proof (checkItems_passes (items (cartOf now s userId)) [] 0%float s) as Hpass.
    destruct (checkItems (items (cartOf now s userId)) [] 0%float s)
      as [[e|[oi st]] s1].
    + exists e. do 4 (split; [done|]). split.
      * intros ->. by destruct (Herr OrderValidationFailed eq_refl).
      * intros [_ Hall]. by specialize (Hpass Hall).
    + exists OrderValidationFailed. do 4 (split; [done|]).
      split; [|done]. intros _. split; [done|]. by destruct (Hok oi st eq_refl).
Qed.

Example createOrder_on_valid_cart :
  createOrder 7 "u" sampleOrderData twoLineState = (inl OrderValidationFailed, twoLineState) ∧
  items (cartOf 7 twoLineState "u") = [lineA 2; lineB 1] ∧
  available twoLineState "A" = Some 5.
Proof. repeat split; vm_compute; reflexivity. Qed.

(** ** Cart merge: repetition *)

(** X12. Merging twice merges once: when the merge of a session cart into the
    cart of a different identifier has succeeded, a second merge of the same
    session is answered with the same cart and changes nothing, since the
    session cart was emptied by the first. *)
Theorem mergeCart_twice now now' userId sessionId s c s' :
  userId ≠ sessionId →
  mergeCart now userId (Some sessionId) s = (MergeOk c, s') →
  mergeCart now' userId (Some sessionId) s' = (MergeOk c, s').
Proof.
  intros Hne Hrun.
  assert (Hsid : sessionId ≠ "").
  { intros ->. unfold mergeCart in Hrun. by rewrite decide_True in Hrun. }
  assert (Hfacts : redis s' !! userId = Some c ∧
                   ∃ e, redis s' !! sessionId = Some e ∧ items e = []).
  { unfold mergeCart in Hrun. rewrite decide_False in Hrun by done.
    rewrite mergeBody_eq in Hrun. cbv zeta in Hrun. case_bool_decide as Hempty.
    - rewrite getCart_eq in Hrun. injection Hrun as <- <-.
      split; [apply materialise_lookup|]. exists (cartOf now s sessionId).
      split; [|done]. rewrite materialise_other by (by intros ->).
      apply materialise_lookup.
    - destruct (addEach now userId (items (cartOf now s sessionId))
                  (materialise now sessionId s)) as [[e|[]] s2]; [done|].
      rewrite getCart_eq in Hrun. injection Hrun as <- <-.
      split; [apply materialise_lookup|]. exists (emptyCart now). split; [|done].
      rewrite materialise_other by (by intros ->). simpl. apply lookup_insert_eq. }
  destruct Hfacts as (Hu & e & He & Hitems).
  unfold mergeCart. rewrite decide_False by done. rewrite mergeBody_eq. cbv zeta.
  assert (Hm1 : materialise now' sessionId s' = s')
    by (unfold materialise; by rewrite He).
  assert (Hc1 : cartOf now' s' sessionId = e) by (unfold cartOf; by rewrite He).
  rewrite Hm1, Hc1, bool_decide_true by done.
  rewrite getCart_eq. unfold cartOf, materialise. by rewrite Hu.
Qed.

Lemma mergeCart_twice_witness :
  "user" ≠ "u" ∧
  ∃ c s',
    mergeCart 7 "user" (Some "u") cartState = (MergeOk c, s') ∧
    items c = [lineA 2] ∧
    mergeCart 8 "user" (Some "u") s' = (MergeOk c, s').
Proof.
  assert (H : "user" ≠ "u") by discriminate.
  split; [exact H|].
  eexists _, (mergeCart 7 "user" (Some "u") cartState).2.
  assert (Hrun : mergeCart 7 "user" (Some "u") cartState
                 = (MergeOk (calculateCartTotals 7 (mkCart [lineA 2] 0 0 0)),
                    (mergeCart 7 "user" (Some "u") cartState).2))
    by (vm_compute; reflexivity).
  split; [exact Hrun|]. split; [reflexivity|].
  exact (mergeCart_twice 7 8 "user" "u" cartState _ _ H Hrun).
Defined.

(** ** Password strength *)

Section PasswordStrength.

Lemma score_sum password :
  score (checkPasswordStrength password)
  = Z.b2z (8 <=? Z.of_nat (length password))
    + Z.b2z (existsb isLowerCase password) + Z.b2z (existsb isUpperCase password)
    + Z.b2z (existsb isNumber password) + Z.b2z (existsb isSpecialChar password).
Proof.
  unfold checkPasswordStrength. simpl.
  destruct (8 <=? Z.of_nat (length password)), (existsb isLowerCase password),
    (existsb isUpperCase password), (existsb isNumber password),
    (existsb isSpecialChar password); reflexivity.
Qed.

Lemma strength_of_score password :
  rank (strength (checkPasswordStrength password))
  = if score (checkPasswordStrength password) <? 3 then 0
    else if score (checkPasswordStrength password) <? 4 then 1 else 2.
Proof.
  unfold checkPasswordStrength. cbv zeta. simpl score. simpl strength.
  by repeat case_match.
Qed.

Lemma b2z_mono (b b' : bool) : (b = true → b' = true) → Z.b2z b ≤ Z.b2z b'.
Proof. destruct b, b'; simpl; intros H; lia. Qed.

Lemma existsb_app_l (f : N → bool) l l' : existsb f l = true → existsb f (l ++ l') = true.
Proof. intros H. rewrite existsb_app, H. done. Qed.

Lemma existsb_app_r (f : N → bool) l l' : existsb f l = true → existsb f (l' ++ l) = true.
Proof. intros H. rewrite existsb_app, H. apply orb_true_r. Qed.

Lemma score_mono password password' :
  (length password ≤ length password')%nat →
  (∀ f, existsb f password = true → existsb f password' = true) →
  score (checkPasswordStrength password) ≤ score (checkPasswordStrength password').
Proof.
  intros Hlen Hex. rewrite !score_sum.
  pose proof (b2z_mono (8 <=? Z.of_nat (length password))
                       (8 <=? Z.of_nat (length password'))) as H1.
  pose proof (b2z_mono _ _ (Hex isLowerCase)) as H2.
  pose proof (b2z_mono _ _ (Hex isUpperCase)) as H3.
  pose proof (b2z_mono _ _ (Hex isNumber)) as H4.
  pose proof (b2z_mono _ _ (Hex isSpecialChar)) as H5.
  assert (Z.b2z (8 <=? Z.of_nat (length password))
          ≤ Z.b2z (8 <=? Z.of_nat (length password'))); [|lia].
  apply H1. intros H%Z.leb_le. apply Z.leb_le. lia.
Qed.

Lemma rank_mono password password' :
  score (checkPasswordStrength password) ≤ score (checkPasswordStrength password') →
  rank (strength (checkPasswordStrength password))
  ≤ rank (strength (checkPasswordStrength password')).
Proof.
  intros Hs. rewrite !strength_of_score.
  repeat match goal with |- context [?a <? ?b] => destruct (Z.ltb_spec a b) end; lia.
Qed.

Lemma class_excludes (yes no : N → bool) password :
  (∀ c, yes c = true → no c = false) →
  forallb yes password = true → existsb no password = false.
Proof.
  intros Hdisj. induction password as [|c l IH]; simpl; [done|].
  intros [Hc Hl]%andb_true_iff. by rewrite (Hdisj c Hc), IH.
Qed.

Lemma inRange_spec lo hi c : inRange lo hi c = true ↔ (lo ≤ c ∧ c ≤ hi)%N.
Proof. unfold inRange. rewrite andb_true_iff, !N.leb_le. done. Qed.

Lemma ranges_disjoint lo hi lo' hi' c :
  (hi < lo' ∨ hi' < lo)%N → inRange lo hi c = true → inRange lo' hi' c = false.
Proof.
  intros Hd [H1 H2]%inRange_spec. apply not_true_iff_false.
  intros [H3 H4]%inRange_spec. lia.
Qed.

Lemma special_not_alnum c :
  isSpecialChar c = true →
  isLowerCase c = false ∧ isUpperCase c = false ∧ isNumber c = false.
Proof.
  unfold isSpecialChar. intros Hc%bool_decide_eq_true. unfold specialChars in Hc.
  repeat (apply elem_of_cons in Hc as [->|Hc]; [done|]). by apply elem_of_nil in Hc.
Qed.

Lemma alnum_not_special (cls : N → bool) c :
  (∀ c, isSpecialChar c = true → cls c = false) →
  cls c = true → isSpecialChar c = false.
Proof.
  intros Hd Hc. destruct (isSpecialChar c) eqn:E; [|done].
  rewrite (Hd c E) in Hc. done.
Qed.

End PasswordStrength.

(** X24. Password strength never drops when characters are added: for every
    password and every sequence of characters put after or before it, the
    score and the strength (Weak below Medium below Strong) of the longer
    password are at least those of the shorter; the score is the number of
    requirements met, between 0 and 5. *)
Theorem password_strength_monotone password extra :
  0 ≤ score (checkPasswordStrength password) ≤ 5 ∧
  score (checkPasswordStrength password)
    ≤ score (checkPasswordStrength (password ++ extra)) ∧
  score (checkPasswordStrength password)
    ≤ score (checkPasswordStrength (extra ++ password)) ∧
  rank (strength (checkPasswordStrength password))
    ≤ rank (strength (checkPasswordStrength (password ++ extra))) ∧
  rank (strength (checkPasswordStrength password))
    ≤ rank (strength (checkPasswordStrength (extra ++ password))).
Proof.
  assert (H1 : score (checkPasswordStrength password)
               ≤ score (checkPasswordStrength (password ++ extra))).
  { apply score_mono; [rewrite length_app; lia|]. intros f. apply existsb_app_l. }
  assert (H2 : score (checkPasswordStrength password)
               ≤ score (checkPasswordStrength (extra ++ password))).
  { apply score_mono; [rewrite length_app; lia|]. intros f. apply existsb_app_r. }
  split.
  - rewrite score_sum.
    destruct (8 <=? Z.of_nat (length password)), (existsb isLowerCase password),
      (existsb isUpperCase password), (existsb isNumber password),
      (existsb isSpecialChar password); simpl; lia.
  - split; [done|]. split; [done|]. split; by apply rank_mono.
Qed.

(** X25. What the strength depends on.  A password whose characters all come
    from one class (only lower-case letters, only upper-case letters, only
    digits, or only special characters) is Weak however long it is.  A
    password that has a lower-case letter, an upper-case letter, a digit and a
    special character is Strong however short it is: the minimum length of 8
    is one requirement among five, not a condition. *)
Theorem password_strength_by_classes password :
  (forallb isLowerCase password = true ∨ forallb isUpperCase password = true ∨
   forallb isNumber password = true ∨ forallb isSpecialChar password = true →
     strength (checkPasswordStrength password) = Weak) ∧
  (existsb isLowerCase password = true → existsb isUpperCase password = true →
   existsb isNumber password = true → existsb isSpecialChar password = true →
     strength (checkPasswordStrength password) = Strong).
Proof.
  split.
  - intros Hone.
    assert (Hs : score (checkPasswordStrength password) ≤ 2).
    { rewrite score_sum.
      assert (Hb : ∀ b : bool, 0 ≤ Z.b2z b ≤ 1) by (intros []; simpl; lia).
      pose proof (Hb (8 <=? Z.of_nat (length password))).
      pose proof (Hb (existsb isLowerCase password)).
      pose proof (Hb (existsb isUpperCase password)).
      pose proof (Hb (existsb isNumber password)).
      pose proof (Hb (existsb isSpecialChar password)).
      destruct Hone as [Hcls|[Hcls|[Hcls|Hcls]]].
      - rewrite (class_excludes isLowerCase isUpperCase), (class_excludes isLowerCase isNumber),
          (class_excludes isLowerCase isSpecialChar); simpl; try lia; try done.
        + intros c. apply alnum_not_special. intros c'. apply special_not_alnum.
        + intros c. apply ranges_disjoint. lia.
        + intros c. apply ranges_disjoint. lia.
      - rewrite (class_excludes isUpperCase isLowerCase), (class_excludes isUpperCase isNumber),
          (class_excludes isUpperCase isSpecialChar); simpl; try lia; try done.
        + intros c. apply alnum_not_special. intros c'. apply special_not_alnum.
        + intros c. apply ranges_disjoint. lia.
        + intros c. apply ranges_disjoint. lia.
      - rewrite (class_excludes isNumber isLowerCase), (class_excludes isNumber isUpperCase),
          (class_excludes isNumber isSpecialChar); simpl; try lia; try done.
        + intros c. apply alnum_not_special. intros c'. apply special_not_alnum.
        + intros c. apply ranges_disjoint. lia.
        + intros c. apply ranges_disjoint. lia.
      - rewrite (class_excludes isSpecialChar isLowerCase),
          (class_excludes isSpecialChar isUpperCase),
          (class_excludes isSpecialChar isNumber); simpl; try lia; try done.
        + intros c. apply special_not_alnum.
        + intros c. apply special_not_alnum.
        + intros c. apply special_not_alnum. }
    pose proof (strength_of_score password) as Hr.
    rewrite (proj2 (Z.ltb_lt _ _)) in Hr by lia.
    by destruct (strength (checkPasswordStrength password)).
  - intros Hl Hu Hn Hsp.
    assert (Hs : 4 ≤ score (checkPasswordStrength password)).
    { rewrite score_sum, Hl, Hu, Hn, Hsp.
      destruct (8 <=? Z.of_nat (length password)); simpl; lia. }
    pose proof (strength_of_score password) as Hr.
    rewrite !(proj2 (Z.ltb_ge _ _)) in Hr by lia.
    by destruct (strength (checkPasswordStrength password)).
Qed.

Lemma password_strength_by_classes_witness :
  forallb isNumber (codeUnits "12345678901234567890") = true ∧
  strength (checkPasswordStrength (codeUnits "12345678901234567890")) = Weak ∧
  existsb isLowerCase (codeUnits "aB3!") = true ∧
  existsb isUpperCase (codeUnits "aB3!") = true ∧
  existsb isNumber (codeUnits "aB3!") = true ∧
  existsb isSpecialChar (codeUnits "aB3!") = true ∧
  strength (checkPasswordStrength (codeUnits "aB3!")) = Strong.
Proof.
  destruct (password_strength_by_classes (codeUnits "12345678901234567890")) as [Hweak _].
  destruct (password_strength_by_classes (codeUnits "aB3!")) as [_ Hstrong].
  split; [reflexivity|]. split; [apply Hweak; right; right; left; reflexivity|].
  do 4 (split; [reflexivity|]). by apply Hstrong.
Defined.
